(** * IntelliVest front end: the request/response contract of
    [src/IntellivestFrontEnd.jsx]

    The component [FinancialAssistant] holds eight pieces of React state and
    three asynchronous handlers ([getSummary], [askQuestion],
    [handlePortfolioUpload]) that all go through one helper, [fetchData].

    The handlers are embedded as finite programs over the effects the source
    performs (state setters, [fetch], [console.error], [FileReader]), with
    [try]/[catch]/[finally] as combinators on programs.  An interpreter runs
    a program against an environment that answers the network calls and the
    file reads, and records every effect in a trace. *)

From Stdlib Require Import List String Ascii Bool NArith ZArith Lia.
From Stdlib Require Import DecimalString DecimalN.
Import ListNotations.
Open Scope string_scope.

Set Implicit Arguments.

(** ** JavaScript values *)

Module JS.

(** A value produced by [JSON.parse] / [response.json()].  An object is the
    list of its own properties.  Numbers are only ever passed through by
    this program, integers stand for them. *)
#[warnings="-register-all"]
Inductive JSON : Type :=
| JNull
| JBool (b : bool)
| JNum (n : Z)
| JStr (s : string)
| JArr (items : list JSON)
| JObj (props : list (string * JSON)).

(** What a state variable or an expression can hold: [undefined] or a JSON
    value. *)
Inductive Value : Type :=
| undefined
| val (j : JSON).

Coercion val : JSON >-> Value.

(** An [Error] object: [name] is the constructor ([Error], [TypeError],
    [SyntaxError]), [message] the text read by [err.message]. *)
Record Error : Type := mkError { name : string; message : string }.

Definition is_empty (s : string) : bool :=
  match s with EmptyString => true | String _ _ => false end.

(** ToBoolean. *)
Definition truthy (v : Value) : bool :=
  match v with
  | undefined => false
  | val JNull => false
  | val (JBool b) => b
  | val (JNum n) => negb (Z.eqb n 0)
  | val (JStr s) => negb (is_empty s)
  | val (JArr _) => true
  | val (JObj _) => true
  end.

(** [typeof v === 'string'] *)
Definition is_string (v : Value) : bool :=
  match v with val (JStr _) => true | _ => false end.

(** [a || b] on strings, as in [err.message || 'fallback']. *)
Definition or_else (a b : string) : string :=
  if is_empty a then b else a.

Fixpoint own_property (props : list (string * JSON)) (key : string) : option JSON :=
  match props with
  | [] => None
  | (k, v) :: rest => if String.eqb k key then Some v else own_property rest key
  end.

(** The own property [key] of a JSON value, if it has one. *)
Definition field (data : JSON) (key : string) : option JSON :=
  match data with
  | JObj props => own_property props key
  | _ => None
  end.

(** The message of the [TypeError] raised by a property read on [null]
    (the wording is the engine's; this is V8's). *)
Definition null_read_message (key : string) : string :=
  "Cannot read properties of null (reading '" ++ key ++ "')".

(** [data.key], for a [key] that no built-in prototype defines (the program
    reads [summary], [answer] and [analysis]): a read on [null] throws, a
    read on anything else gives the own property or [undefined]. *)
Definition get (data : JSON) (key : string) : Error + Value :=
  match data with
  | JNull => inl (mkError "TypeError" (null_read_message key))
  | _ => inr (match field data key with
              | Some v => val v
              | None => undefined
              end)
  end.

(** Template-literal rendering of a non-negative integer. *)
Definition number_to_string (n : N) : string :=
  NilZero.string_of_uint (N.to_uint n).

End JS.

Import JS.

(** ** Component state *)

(** The [File] object taken from the file input. *)
Record File : Type := mkFile { fileName : string }.

(** The eight [useState] cells of [FinancialAssistant]. *)
Record State : Type := mkState {
  ticker : string;
  summary : Value;
  question : string;
  answer : Value;
  portfolioFile : option File;
  portfolioAnalysis : Value;
  loading : bool;
  error : option string   (* [None] is [null] *)
}.

(** State at mount. *)
Definition initial : State :=
  {| ticker := ""; summary := JStr ""; question := ""; answer := JStr "";
     portfolioFile := None; portfolioAnalysis := JStr "";
     loading := false; error := None |}.

(** The setters returned by [useState]. *)
Inductive Setter : Type :=
| setTicker (v : string)
| setSummary (v : Value)
| setQuestion (v : string)
| setAnswer (v : Value)
| setPortfolioFile (v : option File)
| setPortfolioAnalysis (v : Value)
| setLoading (v : bool)
| setError (v : option string).

Definition apply_setter (s : Setter) (st : State) : State :=
  match s with
  | setTicker v =>
      mkState v (summary st) (question st) (answer st) (portfolioFile st)
              (portfolioAnalysis st) (loading st) (error st)
  | setSummary v =>
      mkState (ticker st) v (question st) (answer st) (portfolioFile st)
              (portfolioAnalysis st) (loading st) (error st)
  | setQuestion v =>
      mkState (ticker st) (summary st) v (answer st) (portfolioFile st)
              (portfolioAnalysis st) (loading st) (error st)
  | setAnswer v =>
      mkState (ticker st) (summary st) (question st) v (portfolioFile st)
              (portfolioAnalysis st) (loading st) (error st)
  | setPortfolioFile v =>
      mkState (ticker st) (summary st) (question st) (answer st) v
              (portfolioAnalysis st) (loading st) (error st)
  | setPortfolioAnalysis v =>
      mkState (ticker st) (summary st) (question st) (answer st)
              (portfolioFile st) v (loading st) (error st)
  | setLoading v =>
      mkState (ticker st) (summary st) (question st) (answer st)
              (portfolioFile st) (portfolioAnalysis st) v (error st)
  | setError v =>
      mkState (ticker st) (summary st) (question st) (answer st)
              (portfolioFile st) (portfolioAnalysis st) (loading st) v
  end.

(** ** Network and file system, as the program sees them *)

(** [config.body] is the text [JSON.stringify] gives for a value; the
    serialiser is the platform's and stays symbolic. *)
Inductive Body : Type :=
| JSON_stringify (v : Value).

Record Config : Type := mkConfig {
  method : string;
  headers : list (string * string);
  body : option Body
}.

Record Request : Type := mkRequest { url : string; config : Config }.

(** A [Response]: its status and what [response.json()] settles to (the
    parsed body, or the parser's error). *)
Record Response : Type := mkResponse { status : N; json : Error + JSON }.

(** [response.ok]: the status is in the range 200-299. *)
Definition ok (r : Response) : bool :=
  (200 <=? status r)%N && (status r <=? 299)%N.

(** How the promise of [fetch] settles. *)
Inductive FetchResult : Type :=
| Rejected (cause : Error)
| Resolved (response : Response).

(** How a [FileReader] finishes after [readAsText]: [onload] with
    [e.target.result], or [onerror].  [readAsText] loads a string, whatever
    the file holds; [result] ranges over every value because the handler
    tests its type before using it. *)
Inductive ReadResult : Type :=
| Loaded (result : Value)
| ReadFailed.

(** The world outside the component: what the backend answers to a request
    and what reading a file gives. *)
Record Env : Type := mkEnv {
  net : Request -> FetchResult;
  disk : File -> ReadResult
}.

(** ** Programs *)

(** A handler is a finite tree of effects; a continuation receives what the
    awaited effect settles to. *)
Inductive Prog (A : Type) : Type :=
| Ret (a : A)
| Throw (e : Error)
| Do (s : Setter) (k : Prog A)
| Fetch (req : Request) (k : FetchResult -> Prog A)
| ConsoleError (label : string) (e : Error) (k : Prog A)
| ReadAsText (f : File) (k : ReadResult -> Prog A).

Arguments Ret {A} a.
Arguments Throw {A} e.

Fixpoint bind {A B : Type} (p : Prog A) (f : A -> Prog B) : Prog B :=
  match p with
  | Ret a => f a
  | Throw e => Throw e
  | Do s k => Do s (bind k f)
  | Fetch req k => Fetch req (fun r => bind (k r) f)
  | ConsoleError l e k => ConsoleError l e (bind k f)
  | ReadAsText file k => ReadAsText file (fun r => bind (k r) f)
  end.

Notation "x <- p ;; q" := (bind p (fun x => q))
  (at level 61, p at next level, right associativity).
Notation "p ;; q" := (bind p (fun _ => q))
  (at level 61, right associativity).

(** [try { p } catch (e) { h e }] *)
Fixpoint try_catch {A : Type} (p : Prog A) (h : Error -> Prog A) : Prog A :=
  match p with
  | Ret a => Ret a
  | Throw e => h e
  | Do s k => Do s (try_catch k h)
  | Fetch req k => Fetch req (fun r => try_catch (k r) h)
  | ConsoleError l e k => ConsoleError l e (try_catch k h)
  | ReadAsText file k => ReadAsText file (fun r => try_catch (k r) h)
  end.

(** [try { p } finally { fin }]: [fin] runs on both exits, and the
    completion of [p] is kept unless [fin] throws. *)
Fixpoint try_finally {A : Type} (p : Prog A) (fin : Prog unit) : Prog A :=
  match p with
  | Ret a => fin ;; Ret a
  | Throw e => fin ;; Throw e
  | Do s k => Do s (try_finally k fin)
  | Fetch req k => Fetch req (fun r => try_finally (k r) fin)
  | ConsoleError l e k => ConsoleError l e (try_finally k fin)
  | ReadAsText file k => ReadAsText file (fun r => try_finally (k r) fin)
  end.

Definition call (s : Setter) : Prog unit := Do s (Ret tt).

(** A synchronous expression that may throw. *)
Definition eval {A : Type} (r : Error + A) : Prog A :=
  match r with
  | inl e => Throw e
  | inr a => Ret a
  end.

(** [await fetch(url, config)] *)
Definition fetch (u : string) (c : Config) : Prog Response :=
  Fetch (mkRequest u c)
        (fun r => match r with
                  | Rejected cause => Throw cause
                  | Resolved response => Ret response
                  end).

(** ** Interpreter *)

Inductive Event : Type :=
| EvSet (s : Setter)
| EvFetch (req : Request) (res : FetchResult)
| EvConsoleError (label : string) (e : Error)
| EvRead (f : File) (res : ReadResult).

Record World : Type := mkWorld { ui : State; trace : list Event }.

Definition emit (ev : Event) (w : World) : World :=
  mkWorld (ui w) (trace w ++ [ev]).

Definition update (s : Setter) (w : World) : World :=
  emit (EvSet s) (mkWorld (apply_setter s (ui w)) (trace w)).

(** Runs a program to completion: the left injection is an uncaught
    exception. *)
Fixpoint run {A : Type} (env : Env) (p : Prog A) (w : World)
  : (Error + A) * World :=
  match p with
  | Ret a => (inr a, w)
  | Throw e => (inl e, w)
  | Do s k => run env k (update s w)
  | Fetch req k =>
      let res := net env req in
      run env (k res) (emit (EvFetch req res) w)
  | ConsoleError l e k => run env k (emit (EvConsoleError l e) w)
  | ReadAsText file k =>
      let res := disk env file in
      run env (k res) (emit (EvRead file res) w)
  end.

(** ** The source *)

Definition API_BASE_URL : string := "/intellivest-back-end.py".

(** [new Error(`HTTP Error! Status: ${response.status}`)] *)
Definition HttpError (code : N) : Error :=
  mkError "Error" ("HTTP Error! Status: " ++ number_to_string code).

(** [fetchData(endpoint, method = 'GET', body = null)] *)
Definition fetchData (endpoint : string) (method : string) (body : Value)
  : Prog JSON :=
  try_catch
    (let headers := [("Content-Type", "application/json")] in
     let config := mkConfig method headers None in
     let config :=
       if truthy body
       then mkConfig method headers (Some (JSON_stringify body))
       else config in
     response <- fetch (API_BASE_URL ++ endpoint) config ;;
     if negb (ok response)
     then Throw (HttpError (status response))
     else eval (json response))
    (fun error =>
       ConsoleError "Error Fetching Data: " error (Throw error)).

(** The handlers close over the state of the render they were created in:
    [st] is that state. *)
Definition getSummary (st : State) : Prog unit :=
  if negb (truthy (JStr (ticker st)))
  then call (setError (Some "Please enter a stock ticker 📊"))
  else
    call (setLoading true) ;;
    call (setError None) ;;
    call (setSummary (JStr "")) ;;
    try_finally
      (try_catch
         (data <- fetchData ("/summary/" ++ ticker st) "GET" JNull ;;
          v <- eval (JS.get data "summary") ;;
          call (setSummary v))
         (fun err =>
            call (setError (Some (or_else (message err) "Failed to fetch summary")))))
      (call (setLoading false)).

Definition askQuestion (st : State) : Prog unit :=
  if negb (truthy (JStr (question st)))
  then call (setError (Some "Please enter a question"))
  else
    call (setLoading true) ;;
    call (setError None) ;;
    call (setAnswer (JStr "")) ;;
    try_finally
      (try_catch
         (data <- fetchData "/question" "POST"
                    (JObj [("question", JStr (question st))]) ;;
          v <- eval (JS.get data "answer") ;;
          call (setAnswer v))
         (fun err =>
            call (setError (Some (or_else (message err) "Failed to get answer")))))
      (call (setLoading false)).

(** [reader.onload] *)
Definition onload (result : Value) : Prog unit :=
  try_finally
    (try_catch
       (let text := result in
        match text with
        | val (JStr csv) =>
            data <- fetchData "/portfolio/analyze" "POST"
                      (JObj [("csvData", JStr csv)]) ;;
            v <- eval (JS.get data "analysis") ;;
            call (setPortfolioAnalysis v)
        | _ => call (setError (Some "Error reading file"))
        end)
       (fun err =>
          call (setError (Some (or_else (message err) "Failed to analyze portfolio")))))
    (call (setLoading false)).

(** [reader.onerror] *)
Definition onerror : Prog unit :=
  call (setError (Some "Failed to read the file.")) ;;
  call (setLoading false).

Definition handlePortfolioUpload (st : State) : Prog unit :=
  match portfolioFile st with
  | None => call (setError (Some "Please upload a portfolio file"))
  | Some file =>
      call (setLoading true) ;;
      call (setError None) ;;
      call (setPortfolioAnalysis (JStr "")) ;;
      ReadAsText file
        (fun r => match r with
                  | Loaded result => onload result
                  | ReadFailed => onerror
                  end)
  end.

(** [handleFileChange]: [files] is [e.target.files], [null] or the list of
    the chosen files. *)
Definition handleFileChange (files : option (list File)) : Prog unit :=
  match files with
  | Some (file :: _) => call (setPortfolioFile (Some file))
  | _ => Ret tt
  end.

(** The [onChange] handlers of the two text inputs; [value] is
    [e.target.value]. *)
Definition onTickerChange (value : string) : Prog unit := call (setTicker value).

Definition onQuestionChange (value : string) : Prog unit := call (setQuestion value).

(** ** Sections *)

Inductive SectionId : Type := Summary | Question | Portfolio.

(** The handler behind a section's button. *)
Definition action (s : SectionId) : State -> Prog unit :=
  match s with
  | Summary => getSummary
  | Question => askQuestion
  | Portfolio => handlePortfolioUpload
  end.

(** What a section renders as its result: [summary], [answer] and
    [portfolioAnalysis] feed the three text areas. *)
Definition resultText (s : SectionId) (st : State) : Value :=
  match s with
  | Summary => summary st
  | Question => answer st
  | Portfolio => portfolioAnalysis st
  end.

(** The in-flight flag a section renders: every input and button of every
    section reads the one [loading] cell. *)
Definition isLoading (s : SectionId) (st : State) : bool := loading st.

(** The error a section shows: the single alert renders the one [error]
    cell. *)
Definition errorMessage (s : SectionId) (st : State) : option string := error st.

(** The name of the payload field a section reads. *)
Definition resultField (s : SectionId) : string :=
  match s with
  | Summary => "summary"
  | Question => "answer"
  | Portfolio => "analysis"
  end.

(** The guard at the head of each handler. *)
Definition guard (s : SectionId) (st : State) : bool :=
  match s with
  | Summary => truthy (JStr (ticker st))
  | Question => truthy (JStr (question st))
  | Portfolio => match portfolioFile st with Some _ => true | None => false end
  end.

(** Pressing the button of section [s] in state [st], run until the handler
    and its callbacks have settled. *)
Definition submit (s : SectionId) (env : Env) (st : State) : World :=
  snd (run env (action s st) (mkWorld st [])).

Definition after (s : SectionId) (env : Env) (st : State) : State :=
  ui (submit s env st).

(** The network calls in a trace, in order. *)
Fixpoint fetches (t : list Event) : list (Request * FetchResult) :=
  match t with
  | [] => []
  | EvFetch req res :: rest => (req, res) :: fetches rest
  | _ :: rest => fetches rest
  end.

(** The state reached by the setters of a trace. *)
Fixpoint replay (t : list Event) (st : State) : State :=
  match t with
  | [] => st
  | EvSet s :: rest => replay rest (apply_setter s st)
  | _ :: rest => replay rest st
  end.

(** The state each network call of a trace was issued in. *)
Fixpoint issued_in (t : list Event) (st : State) : list (Request * State) :=
  match t with
  | [] => []
  | EvSet s :: rest => issued_in rest (apply_setter s st)
  | EvFetch req _ :: rest => (req, st) :: issued_in rest st
  | _ :: rest => issued_in rest st
  end.

(** ** Derived notions used by the statements *)

(** The request [fetchData] hands to [fetch]. *)
Definition gateway_request (endpoint method : string) (body : Value) : Request :=
  mkRequest (API_BASE_URL ++ endpoint)
            (mkConfig method [("Content-Type", "application/json")]
                      (if truthy body then Some (JSON_stringify body) else None)).

(** Reading a rendered status back. *)
Definition string_to_number (s : string) : option N :=
  option_map N.of_uint (NilZero.uint_of_string s).

(** What a call of [fetchData] completes with, given how [fetch] settled. *)
Definition gateway (res : FetchResult) : Error + JSON :=
  match res with
  | Rejected cause => inl cause
  | Resolved response =>
      if ok response then json response else inl (HttpError (status response))
  end.

(** The block the three handlers share once the guard has passed and the
    section is cleared: call the gateway, store one field of the payload,
    turn a failure into the error message, lower the flag. *)
Definition exchange (endpoint method : string) (body : Value) (key : string)
           (store : Value -> Setter) (generic : string) : Prog unit :=
  try_finally
    (try_catch
       (data <- fetchData endpoint method body ;;
        v <- eval (JS.get data key) ;;
        call (store v))
       (fun err => call (setError (Some (or_else (message err) generic)))))
    (call (setLoading false)).

(** What the protected block of [exchange] ends with. *)
Definition settle (key : string) (res : FetchResult) : Error + Value :=
  match gateway res with
  | inl e => inl e
  | inr data => JS.get data key
  end.

(** The setter of a section's result cell. *)
Definition setResult (s : SectionId) : Value -> Setter :=
  match s with
  | Summary => setSummary
  | Question => setAnswer
  | Portfolio => setPortfolioAnalysis
  end.

(** The message a section shows for a failure that has none of its own. *)
Definition fallback (s : SectionId) : string :=
  match s with
  | Summary => "Failed to fetch summary"
  | Question => "Failed to get answer"
  | Portfolio => "Failed to analyze portfolio"
  end.

(** The request a section sends for a text input (the ticker, the question,
    the text of the file). *)
Definition request (s : SectionId) (input : string) : Request :=
  match s with
  | Summary => gateway_request ("/summary/" ++ input) "GET" JNull
  | Question => gateway_request "/question" "POST" (JObj [("question", JStr input)])
  | Portfolio =>
      gateway_request "/portfolio/analyze" "POST" (JObj [("csvData", JStr input)])
  end.

(** The text a submission sends, when it gets as far as sending one: the
    guard passes and, for the portfolio, the reader loads a string. *)
Definition text_input (s : SectionId) (env : Env) (st : State) : option string :=
  match s with
  | Summary => if is_empty (ticker st) then None else Some (ticker st)
  | Question => if is_empty (question st) then None else Some (question st)
  | Portfolio =>
      match portfolioFile st with
      | Some file =>
          match disk env file with
          | Loaded (val (JStr csv)) => Some csv
          | _ => None
          end
      | None => None
      end
  end.

(** Entering [Loading]: the three setter calls after the guard. *)
Definition cleared (s : SectionId) (st : State) : State :=
  apply_setter (setResult s (JStr ""))
    (apply_setter (setError None) (apply_setter (setLoading true) st)).

(** Leaving [Loading] with what the protected block ended with. *)
Definition settled (s : SectionId) (r : Error + Value) (st : State) : State :=
  apply_setter (setLoading false)
    (match r with
     | inl e => apply_setter (setError (Some (or_else (message e) (fallback s)))) st
     | inr v => apply_setter (setResult s v) st
     end).

(** Every setter call of a program satisfies [P]. *)
Fixpoint only_sets {A : Type} (P : Setter -> Prop) (p : Prog A) : Prop :=
  match p with
  | Ret _ => True
  | Throw _ => True
  | Do s k => P s /\ only_sets P k
  | Fetch _ k => forall r, only_sets P (k r)
  | ConsoleError _ _ k => only_sets P k
  | ReadAsText _ k => forall r, only_sets P (k r)
  end.

(** The setters the handler of a section may call. *)
Definition writes (s : SectionId) (x : Setter) : Prop :=
  match x with
  | setLoading _ => True
  | setError _ => True
  | setSummary _ => s = Summary
  | setAnswer _ => s = Question
  | setPortfolioAnalysis _ => s = Portfolio
  | _ => False
  end.

(** The required input of a section is empty: the empty string, or no
    file. *)
Definition input_empty (s : SectionId) (st : State) : Prop :=
  match s with
  | Summary => ticker st = ""
  | Question => question st = ""
  | Portfolio => portfolioFile st = None
  end.

(** A string of white space only. *)
Definition is_space (c : ascii) : bool :=
  match nat_of_ascii c with
  | 9 | 10 | 11 | 12 | 13 | 32 => true
  | _ => false
  end.

Definition is_blank (s : string) : bool :=
  forallb is_space (list_ascii_of_string s).

(** ** Rendering *)

(** The element tree [FinancialAssistant] returns, with the props that
    carry state or behaviour; class names and icons are left out. *)
#[warnings="-register-all"]
Inductive Node : Type :=
| Div (children : list Node)
| H1 (text : string)
| H2 (text : string)
| Alert (title description : string)
| TextInput (placeholder value : string) (disabled : bool)
| FileInput (accept id : string) (disabled : bool)
| Label (htmlFor text : string)
| Button (onClick : SectionId) (disabled : bool) (label : string)
| Textarea (value : Value) (rows : nat)
| Text (s : string).

(** [{error && (<Alert>...</Alert>)}]: [null] and the empty string render
    nothing. *)
Definition error_and (e : option string) (n : string -> Node) : list Node :=
  match e with
  | Some m => if is_empty m then [] else [n m]
  | None => []
  end.

(** [{v && (<Textarea .../>)}]: a truthy [v] gives the element; a falsy one
    is rendered itself, which shows nothing except for the number 0. *)
Definition value_and (v : Value) (n : Node) : list Node :=
  if truthy v then [n]
  else match v with
       | val (JNum _) => [Text "0"]
       | _ => []
       end.

Definition render (st : State) : Node :=
  Div [Div
    ([H1 "GenAI Financial Assistant"]
     ++ error_and (error st) (fun m => Alert "Error" m)
     ++ [Div ([H2 "Stock Summary";
               Div [TextInput "Enter stock ticker (e.g., AAPL)" (ticker st) (loading st);
                    Button Summary (loading st)
                           (if loading st then "Loading..." else "Get Summary")]]
              ++ value_and (summary st) (Textarea (summary st) 4));
         Div ([H2 "Financial Q&A";
               Div [TextInput "Ask a financial question" (question st) (loading st);
                    Button Question (loading st)
                           (if loading st then "Loading..." else "Get Answer")]]
              ++ value_and (answer st) (Textarea (answer st) 4));
         Div ([H2 "Portfolio Analysis";
               Div [FileInput ".csv" "portfolio-upload" (loading st);
                    Label "portfolio-upload" "Upload Portfolio CSV";
                    Button Portfolio (loading st)
                           (if loading st then "Loading..." else "Analyze Portfolio")]]
              ++ value_and (portfolioAnalysis st) (Textarea (portfolioAnalysis st) 4))])%list].

(** The [disabled] prop of every input and button, in document order. *)
Fixpoint disabled_props (n : Node) : list bool :=
  match n with
  | Div children => flat_map disabled_props children
  | TextInput _ _ d => [d]
  | FileInput _ _ d => [d]
  | Button _ d _ => [d]
  | _ => []
  end.

(** The buttons with their captions, in document order. *)
Fixpoint captions (n : Node) : list (SectionId * string) :=
  match n with
  | Div children => flat_map captions children
  | Button s _ l => [(s, l)]
  | _ => []
  end.

(** The descriptions of the alerts on the page. *)
Fixpoint alerts (n : Node) : list string :=
  match n with
  | Div children => flat_map alerts children
  | Alert _ m => [m]
  | _ => []
  end.

(** ** A session *)

(** What the user can do to the page. *)
Inductive UserEvent : Type :=
| TypeTicker (value : string)
| TypeQuestion (value : string)
| ChooseFiles (files : option (list File))
| Click (s : SectionId).

(** The handler an event reaches. *)
Definition handler (ev : UserEvent) (st : State) : Prog unit :=
  match ev with
  | TypeTicker v => onTickerChange v
  | TypeQuestion v => onQuestionChange v
  | ChooseFiles files => handleFileChange files
  | Click s => action s st
  end.

(** One event, handled until it has settled.  Every input and button is
    rendered with [disabled={loading}], so an event in a loading state
    reaches no handler. *)
Definition interact (env : Env) (ev : UserEvent) (st : State) : State :=
  if loading st then st
  else ui (snd (run env (handler ev st) (mkWorld st []))).

(** A sequence of events, each with the world it meets. *)
Fixpoint session (evs : list (Env * UserEvent)) (st : State) : State :=
  match evs with
  | [] => st
  | (env, ev) :: rest => session rest (interact env ev st)
  end.

(** ** Calls and reads that stay pending *)

(** The outside world when an answer may never come: [None] is a promise of
    [fetch] that never settles, or a reader that never fires a callback.
    [fetchData] passes [fetch] neither a timeout nor an abort signal, so
    nothing ends such a wait. *)
Record OpenEnv : Type := mkOpenEnv {
  reply : Request -> option FetchResult;
  reading : File -> option ReadResult
}.

(** Runs a program as far as it gets: the completion is [None] when the
    program is left waiting, and the code after the [await], its [catch]
    and its [finally] included, has not run. *)
Fixpoint run_open {A : Type} (env : OpenEnv) (p : Prog A) (w : World)
  : option (Error + A) * World :=
  match p with
  | Ret a => (Some (inr a), w)
  | Throw e => (Some (inl e), w)
  | Do s k => run_open env k (update s w)
  | Fetch req k =>
      match reply env req with
      | Some res => run_open env (k res) (emit (EvFetch req res) w)
      | None => (None, w)
      end
  | ConsoleError l e k => run_open env k (emit (EvConsoleError l e) w)
  | ReadAsText file k =>
      match reading env file with
      | Some res => run_open env (k res) (emit (EvRead file res) w)
      | None => (None, w)
      end
  end.

(** A world in which every call and every read settles. *)
Definition always (env : Env) : OpenEnv :=
  mkOpenEnv (fun req => Some (net env req)) (fun file => Some (disk env file)).

(** A world in which none does. *)
Definition never : OpenEnv := mkOpenEnv (fun _ => None) (fun _ => None).

(** One event, handled as far as it gets. *)
Definition interact_open (env : OpenEnv) (ev : UserEvent) (st : State) : State :=
  if loading st then st
  else ui (snd (run_open env (handler ev st) (mkWorld st []))).

(** The handler of the event runs to its end. *)
Definition completes (env : OpenEnv) (ev : UserEvent) (st : State) : bool :=
  match fst (run_open env (handler ev st) (mkWorld st [])) with
  | Some _ => true
  | None => false
  end.

Fixpoint session_open (evs : list (OpenEnv * UserEvent)) (st : State) : State :=
  match evs with
  | [] => st
  | (env, ev) :: rest => session_open rest (interact_open env ev st)
  end.

(** Every handler the session starts runs to its end. *)
Fixpoint all_complete (evs : list (OpenEnv * UserEvent)) (st : State) : bool :=
  match evs with
  | [] => true
  | (env, ev) :: rest =>
      completes env ev st && all_complete rest (interact_open env ev st)
  end.

(** ** More views of a trace *)

(** The file reads of a trace. *)
Fixpoint reads (t : list Event) : list (File * ReadResult) :=
  match t with
  | [] => []
  | EvRead f res :: rest => (f, res) :: reads rest
  | _ :: rest => reads rest
  end.

(** The errors written to the console. *)
Fixpoint logged (t : list Event) : list Error :=
  match t with
  | [] => []
  | EvConsoleError _ e :: rest => e :: logged rest
  | _ :: rest => logged rest
  end.

(** The input and output of a trace: its reads and network calls, in
    order. *)
Fixpoint io (t : list Event) : list Event :=
  match t with
  | [] => []
  | EvFetch req res :: rest => EvFetch req res :: io rest
  | EvRead f res :: rest => EvRead f res :: io rest
  | _ :: rest => io rest
  end.

(** The state each read and each network call of a trace was started in. *)
Fixpoint pending_in (t : list Event) (st : State) : list State :=
  match t with
  | [] => []
  | EvSet s :: rest => pending_in rest (apply_setter s st)
  | EvFetch _ _ :: rest => st :: pending_in rest st
  | EvRead _ _ :: rest => st :: pending_in rest st
  | _ :: rest => pending_in rest st
  end.

(** The message each guard sets. *)
Definition validation_message (s : SectionId) : string :=
  match s with
  | Summary => "Please enter a stock ticker 📊"
  | Question => "Please enter a question"
  | Portfolio => "Please upload a portfolio file"
  end.

(** ** Scenarios *)

(** A backend that answers every request with one response, and a reader
    that finishes every read the same way. *)
Definition constant_env (res : FetchResult) (read : ReadResult) : Env :=
  mkEnv (fun _ => res) (fun _ => read).

Definition answers (code : N) (data : JSON) : FetchResult :=
  Resolved (mkResponse code (inr data)).

(** The ticker field holds [t]; everything else is as at mount. *)
Definition with_ticker (t : string) : State :=
  apply_setter (setTicker t) initial.

Definition with_question (q : string) : State :=
  apply_setter (setQuestion q) initial.

Definition with_file (f : File) : State :=
  apply_setter (setPortfolioFile (Some f)) initial.

Definition offline : Env :=
  constant_env (Rejected (mkError "TypeError" "Failed to fetch")) ReadFailed.

(** The scenarios of the specification. *)
Definition apple_env : Env :=
  constant_env (answers 200 (JObj [("summary", JStr "Apple Inc. overview...")]))
               ReadFailed.

Definition csv_env : Env :=
  constant_env (answers 200 (JObj [("analysis", JStr "Diversification score: 7/10")]))
               (Loaded (JStr "ticker,shares")).

Definition portfolio_csv : File := mkFile "portfolio.csv".

Definition bond_env : Env :=
  constant_env (answers 500 JNull) ReadFailed.

(** A 2xx response whose body is the JSON text [null]. *)
Definition null_env : Env :=
  constant_env (answers 200 JNull) (Loaded (JStr "ticker,shares")).

(** A 2xx response whose body is an object without any of the fields. *)
Definition empty_object_env : Env :=
  constant_env (answers 200 (JObj [])) (Loaded (JStr "ticker,shares")).

(** A picture chosen in place of a CSV file: [readAsText] decodes its
    bytes into a string. *)
Definition picture : File := mkFile "chart.png".

Definition picture_env : Env :=
  constant_env (answers 200 (JObj [("analysis", JStr "No holdings found")]))
               (Loaded (JStr "�PNG")).

(** A 2xx response whose body is not JSON. *)
Definition garbled_env : Env :=
  constant_env
    (Resolved (mkResponse 200 (inl (mkError "SyntaxError" "Unexpected token '<'"))))
    ReadFailed.

(** A rejection that carries no message. *)
Definition silent_env : Env :=
  constant_env (Rejected (mkError "Error" "")) ReadFailed.

(** What an event enters into the three input cells. *)
Definition entered (ev : UserEvent) (cells : string * string * option File)
  : string * string * option File :=
  match ev, cells with
  | TypeTicker v, (_, q, f) => (v, q, f)
  | TypeQuestion v, (t, _, f) => (t, v, f)
  | ChooseFiles (Some (file :: _)), (t, q, _) => (t, q, Some file)
  | _, _ => cells
  end.

Definition input_cells (st : State) : string * string * option File :=
  (ticker st, question st, portfolioFile st).

(** * Properties *)

(** ** The interpreter on the combinators *)

Section Interpreter.

Variable env : Env.

Lemma run_bind (A B : Type) (p : Prog A) (f : A -> Prog B) (w : World) :
  run env (bind p f) w =
  match run env p w with
  | (inl e, w') => (inl e, w')
  | (inr a, w') => run env (f a) w'
  end.
Proof.
  revert w; induction p as [a|e|s k IH|req k IH|l e k IH|file k IH];
    intros w; simpl; auto.
Qed.

Lemma run_try_catch (A : Type) (p : Prog A) (h : Error -> Prog A) (w : World) :
  run env (try_catch p h) w =
  match run env p w with
  | (inl e, w') => run env (h e) w'
  | (inr a, w') => (inr a, w')
  end.
Proof.
  revert w; induction p as [a|e|s k IH|req k IH|l e k IH|file k IH];
    intros w; simpl; auto.
Qed.

Lemma run_try_finally (A : Type) (p : Prog A) (fin : Prog unit) (w : World) :
  run env (try_finally p fin) w =
  match run env fin (snd (run env p w)) with
  | (inl e, w') => (inl e, w')
  | (inr _, w') => (fst (run env p w), w')
  end.
Proof.
  revert w; induction p as [a|e|s k IH|req k IH|l e k IH|file k IH];
    intros w; simpl; auto;
    rewrite run_bind; destruct (run env fin w) as [[e'|[]] w']; reflexivity.
Qed.

(** The interpreter only ever extends the trace, and the state it ends in
    is the one the setters it logged lead to. *)
Lemma run_trace (A : Type) (p : Prog A) (w : World) :
  exists t,
    trace (snd (run env p w)) = (trace w ++ t)%list /\
    ui (snd (run env p w)) = replay t (ui w).
Proof.
  revert w; induction p as [a|e|s k IH|req k IH|l e k IH|file k IH];
    intros w; simpl.
  - exists []; rewrite app_nil_r; auto.
  - exists []; rewrite app_nil_r; auto.
  - destruct (IH (update s w)) as [t [Ht Hu]].
    exists (EvSet s :: t); rewrite Ht, Hu; simpl; rewrite <- app_assoc; auto.
  - destruct (IH (net env req) (emit (EvFetch req (net env req)) w)) as [t [Ht Hu]].
    exists (EvFetch req (net env req) :: t); rewrite Ht, Hu; simpl;
      rewrite <- app_assoc; auto.
  - destruct (IH (emit (EvConsoleError l e) w)) as [t [Ht Hu]].
    exists (EvConsoleError l e :: t); rewrite Ht, Hu; simpl;
      rewrite <- app_assoc; auto.
  - destruct (IH (disk env file) (emit (EvRead file (disk env file)) w)) as [t [Ht Hu]].
    exists (EvRead file (disk env file) :: t); rewrite Ht, Hu; simpl;
      rewrite <- app_assoc; auto.
Qed.

End Interpreter.

(** ** Which cells a handler writes *)

Section Footprint.

Variable P : Setter -> Prop.

Lemma only_sets_bind (A B : Type) (p : Prog A) (f : A -> Prog B) :
  only_sets P p -> (forall a, only_sets P (f a)) -> only_sets P (bind p f).
Proof.
  intros Hp Hf; induction p as [a|e|s k IH|req k IH|l e k IH|file k IH];
    simpl in *; auto.
  destruct Hp; auto.
Qed.

Lemma only_sets_try_catch (A : Type) (p : Prog A) (h : Error -> Prog A) :
  only_sets P p -> (forall e, only_sets P (h e)) -> only_sets P (try_catch p h).
Proof.
  intros Hp Hh; induction p as [a|e|s k IH|req k IH|l e k IH|file k IH];
    simpl in *; auto.
  destruct Hp; auto.
Qed.

Lemma only_sets_try_finally (A : Type) (p : Prog A) (fin : Prog unit) :
  only_sets P p -> only_sets P fin -> only_sets P (try_finally p fin).
Proof.
  intros Hp Hf; induction p as [a|e|s k IH|req k IH|l e k IH|file k IH];
    simpl in *; auto.
  - apply only_sets_bind; simpl; auto.
  - apply only_sets_bind; simpl; auto.
  - destruct Hp; auto.
Qed.

Lemma only_sets_call (s : Setter) : P s -> only_sets P (call s).
Proof. simpl; auto. Qed.

Lemma only_sets_eval (A : Type) (r : Error + A) : only_sets P (eval r).
Proof. destruct r; simpl; auto. Qed.

Lemma only_sets_fetchData (endpoint method : string) (body : Value) :
  only_sets P (fetchData endpoint method body).
Proof.
  unfold fetchData; apply only_sets_try_catch.
  - apply only_sets_bind.
    + unfold fetch; simpl; intros [c|r]; simpl; auto.
    + intros r; destruct (negb (ok r)); simpl; auto using only_sets_eval.
  - intros e; simpl; auto.
Qed.

(** A view of the state that no setter satisfying [P] changes is the same
    after the program as before. *)
Lemma only_sets_frame (A B : Type) (view : State -> B) (env : Env) (p : Prog A) :
  (forall s st, P s -> view (apply_setter s st) = view st) ->
  only_sets P p ->
  forall w, view (ui (snd (run env p w))) = view (ui w).
Proof.
  intros Hview; induction p as [a|e|s k IH|req k IH|l e k IH|file k IH];
    simpl; intros Hp w; auto.
  - destruct Hp as [Hs Hk]; rewrite (IH Hk); simpl; auto.
  - rewrite (IH _ (Hp _)); auto.
  - rewrite (IH Hp); auto.
  - rewrite (IH _ (Hp _)); auto.
Qed.

End Footprint.

(** ** The gateway *)

Lemma string_to_number_to_string (n : N) :
  string_to_number (number_to_string n) = Some n.
Proof.
  unfold string_to_number, number_to_string.
  rewrite NilZero.usu.
  - simpl; now rewrite DecimalN.Unsigned.of_to.
  - destruct n as [|p]; simpl; [discriminate | apply DecimalPos.Unsigned.to_uint_nonnil].
Qed.

Lemma HttpError_inj (a b : N) : HttpError a = HttpError b -> a = b.
Proof.
  unfold HttpError; intros H.
  assert (E : number_to_string a = number_to_string b) by (simpl in H; congruence).
  apply (f_equal string_to_number) in E.
  rewrite !string_to_number_to_string in E; congruence.
Qed.

(** One call of [fetchData]: exactly one [fetch], and a [console.error]
    on each failing path before the error is thrown again. *)
Lemma run_fetchData (env : Env) (endpoint method : string) (body : Value) (w : World) :
  run env (fetchData endpoint method body) w =
  let req := gateway_request endpoint method body in
  let w1 := emit (EvFetch req (net env req)) w in
  match gateway (net env req) with
  | inl e => (inl e, emit (EvConsoleError "Error Fetching Data: " e) w1)
  | inr data => (inr data, w1)
  end.
Proof.
  unfold fetchData, gateway_request, gateway.
  rewrite run_try_catch, run_bind.
  destruct (truthy body); simpl;
    (destruct (net env _) as [cause|response]; simpl; [reflexivity|]);
    destruct (ok response); simpl; try reflexivity;
    destruct (json response); reflexivity.
Qed.

(** C4. For every endpoint, method and body, [fetchData] issues one request
    and: a response with a status outside 200-299 makes it fail with the
    error built from that status (distinct statuses give distinct errors);
    a rejected [fetch] makes it fail with the rejection's cause; a 2xx
    response makes it complete as [response.json()] does, returning the
    parsed value. *)
Theorem fetchData_contract :
  forall (env : Env) (endpoint method : string) (body : Value) (w : World),
    let req := gateway_request endpoint method body in
    let result := fst (run env (fetchData endpoint method body) w) in
    (forall response,
        net env req = Resolved response -> ok response = false ->
        result = inl (HttpError (status response))) /\
    (forall a b, HttpError a = HttpError b -> a = b) /\
    (forall cause, net env req = Rejected cause -> result = inl cause) /\
    (forall response,
        net env req = Resolved response -> ok response = true ->
        result = json response) /\
    (forall response data,
        net env req = Resolved response -> ok response = true ->
        json response = inr data -> result = inr data) /\
    fetches (trace (snd (run env (fetchData endpoint method body) (mkWorld (ui w) []))))
    = [(req, net env req)].
Proof.
  intros env endpoint method body w req result.
  subst result; rewrite !run_fetchData; fold req; cbv zeta; unfold gateway.
  repeat split.
  - intros response Hnet Hok; rewrite Hnet, Hok; reflexivity.
  - exact HttpError_inj.
  - intros cause Hnet; rewrite Hnet; reflexivity.
  - intros response Hnet Hok; rewrite Hnet, Hok; destruct (json response); reflexivity.
  - intros response data Hnet Hok Hjson; rewrite Hnet, Hok, Hjson; reflexivity.
  - destruct (net env req) as [cause|response]; simpl; [reflexivity|].
    destruct (ok response); simpl; [|reflexivity].
    destruct (json response); reflexivity.
Qed.

Lemma fetchData_contract_witness :
  fst (run bond_env (fetchData "/question" "POST" (JObj [("question", JStr "What is a bond?")]))
         (mkWorld initial []))
  = inl (HttpError 500) /\
  fst (run offline (fetchData "/summary/AAPL" "GET" JNull) (mkWorld initial []))
  = inl (mkError "TypeError" "Failed to fetch") /\
  fst (run apple_env (fetchData "/summary/AAPL" "GET" JNull) (mkWorld initial []))
  = inr (JObj [("summary", JStr "Apple Inc. overview...")]).
Proof.
  split; [|split].
  - destruct (fetchData_contract bond_env "/question" "POST"
                (JObj [("question", JStr "What is a bond?")]) (mkWorld initial []))
      as [Hstatus _].
    apply (Hstatus (mkResponse 500 (inr JNull))); reflexivity.
  - destruct (fetchData_contract offline "/summary/AAPL" "GET" JNull (mkWorld initial []))
      as [_ [_ [Hcause _]]].
    apply Hcause; reflexivity.
  - destruct (fetchData_contract apple_env "/summary/AAPL" "GET" JNull (mkWorld initial []))
      as [_ [_ [_ [_ [Hdata _]]]]].
    apply (Hdata (mkResponse 200 (inr (JObj [("summary", JStr "Apple Inc. overview...")]))));
      reflexivity.
Defined.

(** ** The shared block *)

Lemma fetches_app (t1 t2 : list Event) :
  fetches (t1 ++ t2) = (fetches t1 ++ fetches t2)%list.
Proof.
  induction t1 as [|[s|req res|l e|f res] t1 IH]; simpl; auto.
  now rewrite IH.
Qed.

Lemma issued_in_app (t1 t2 : list Event) (st : State) :
  issued_in (t1 ++ t2) st = (issued_in t1 st ++ issued_in t2 (replay t1 st))%list.
Proof.
  revert st; induction t1 as [|[s|req res|l e|f res] t1 IH]; simpl; auto.
  intros st; now rewrite IH.
Qed.

Section Exchange.

Variables (env : Env) (endpoint method : string) (body : Value) (key : string).
Variables (store : Value -> Setter) (generic : string).

Variable w : World.

Local Abbreviation block := (exchange endpoint method body key store generic).
Local Abbreviation req := (gateway_request endpoint method body).

(** The state the block ends in: the flag is lowered over either the stored
    field or the stored error message. *)
Lemma exchange_ui :
  ui (snd (run env block w)) =
  apply_setter (setLoading false)
    (match settle key (net env req) with
     | inl e => apply_setter (setError (Some (or_else (message e) generic))) (ui w)
     | inr v => apply_setter (store v) (ui w)
     end).
Proof.
  unfold exchange, settle.
  rewrite run_try_finally, run_try_catch, run_bind, run_fetchData.
  cbv zeta.
  destruct (gateway (net env req)) as [e|data]; simpl; [reflexivity|].
  rewrite run_bind.
  destruct (JS.get data key) as [e|v]; reflexivity.
Qed.

(** The block issues exactly one network call. *)
Lemma exchange_fetches :
  fetches (trace (snd (run env block w))) =
  (fetches (trace w) ++ [(req, net env req)])%list.
Proof.
  unfold exchange.
  rewrite run_try_finally, run_try_catch, run_bind, run_fetchData.
  cbv zeta.
  destruct (gateway (net env req)) as [e|data]; simpl.
  - rewrite !fetches_app; simpl; now rewrite !app_nil_r.
  - rewrite run_bind.
    destruct (JS.get data key) as [e|v]; simpl;
      rewrite !fetches_app; simpl; now rewrite !app_nil_r.
Qed.

(** The call is issued in the state the block was entered in. *)
Lemma exchange_issued_in (st : State) :
  issued_in (trace (snd (run env block w))) st =
  (issued_in (trace w) st ++ [(req, replay (trace w) st)])%list.
Proof.
  unfold exchange.
  rewrite run_try_finally, run_try_catch, run_bind, run_fetchData.
  cbv zeta.
  destruct (gateway (net env req)) as [e|data]; simpl.
  - rewrite !issued_in_app; simpl; now rewrite !app_nil_r.
  - rewrite run_bind.
    destruct (JS.get data key) as [e|v]; simpl;
      rewrite !issued_in_app; simpl; now rewrite !app_nil_r.
Qed.

End Exchange.

(** ** The handlers as state transitions *)

Lemma run_call (A : Type) (env : Env) (s : Setter) (p : Prog A) (w : World) :
  run env (call s ;; p) w = run env p (update s w).
Proof. reflexivity. Qed.

Lemma getSummary_guarded (st : State) :
  is_empty (ticker st) = false ->
  getSummary st =
  (call (setLoading true) ;; call (setError None) ;; call (setSummary (JStr "")) ;;
   exchange ("/summary/" ++ ticker st) "GET" JNull "summary" setSummary
            "Failed to fetch summary").
Proof. unfold getSummary; simpl truthy; intros ->; reflexivity. Qed.

Lemma askQuestion_guarded (st : State) :
  is_empty (question st) = false ->
  askQuestion st =
  (call (setLoading true) ;; call (setError None) ;; call (setAnswer (JStr "")) ;;
   exchange "/question" "POST" (JObj [("question", JStr (question st))]) "answer"
            setAnswer "Failed to get answer").
Proof. unfold askQuestion; simpl truthy; intros ->; reflexivity. Qed.

Lemma onload_string (csv : string) :
  onload (JStr csv) =
  exchange "/portfolio/analyze" "POST" (JObj [("csvData", JStr csv)]) "analysis"
           setPortfolioAnalysis "Failed to analyze portfolio".
Proof. reflexivity. Qed.

Lemma handlePortfolioUpload_loaded (env : Env) (st : State) (file : File) (csv : string) :
  portfolioFile st = Some file ->
  disk env file = Loaded (JStr csv) ->
  submit Portfolio env st =
  snd (run env (onload (JStr csv))
         (emit (EvRead file (Loaded (JStr csv)))
            (update (setPortfolioAnalysis (JStr ""))
               (update (setError None) (update (setLoading true) (mkWorld st [])))))).
Proof.
  intros Hfile Hdisk; unfold submit, action, handlePortfolioUpload.
  rewrite Hfile, !run_call; simpl; rewrite Hdisk; reflexivity.
Qed.

(** A submission that sends [input] is the transition
    [st -> cleared -> settled], with one network call issued in the cleared
    state. *)
Lemma submit_sends (s : SectionId) (env : Env) (st : State) (input : string) :
  text_input s env st = Some input ->
  let req := request s input in
  after s env st = settled s (settle (resultField s) (net env req)) (cleared s st) /\
  fetches (trace (submit s env st)) = [(req, net env req)] /\
  issued_in (trace (submit s env st)) st = [(req, cleared s st)].
Proof.
  destruct s; simpl text_input; intros H req; subst req.
  - destruct (is_empty (ticker st)) eqn:E; [discriminate|]; injection H as <-.
    unfold after, submit, action; rewrite (getSummary_guarded _ E), !run_call.
    rewrite exchange_ui, exchange_fetches, exchange_issued_in; auto.
  - destruct (is_empty (question st)) eqn:E; [discriminate|]; injection H as <-.
    unfold after, submit, action; rewrite (askQuestion_guarded _ E), !run_call.
    rewrite exchange_ui, exchange_fetches, exchange_issued_in; auto.
  - destruct (portfolioFile st) as [file|] eqn:Hfile; [|discriminate].
    destruct (disk env file) as [[|[| | |csv| |]]|] eqn:Hdisk; try discriminate.
    injection H as <-.
    unfold after; rewrite (handlePortfolioUpload_loaded _ _ Hfile Hdisk), onload_string.
    rewrite exchange_ui, exchange_fetches, exchange_issued_in; auto.
Qed.

(** A submission stopped by its guard only sets the error message. *)
Lemma submit_guard_fails (s : SectionId) (env : Env) (st : State) :
  guard s st = false ->
  exists msg, submit s env st = update (setError (Some msg)) (mkWorld st []).
Proof.
  destruct s; simpl; intros H; unfold submit, action.
  - unfold getSummary; simpl truthy; rewrite H; simpl; eauto.
  - unfold askQuestion; simpl truthy; rewrite H; simpl; eauto.
  - unfold handlePortfolioUpload; destruct (portfolioFile st); [discriminate|]; simpl; eauto.
Qed.

(** A portfolio submission whose read does not yield a string: the reader
    error and the non-text result each set their message, lower the flag and
    issue no call. *)
Lemma submit_unreadable (env : Env) (st : State) (file : File) :
  portfolioFile st = Some file ->
  text_input Portfolio env st = None ->
  after Portfolio env st =
  apply_setter (setLoading false)
    (apply_setter
       (setError (Some (match disk env file with
                        | ReadFailed => "Failed to read the file."
                        | Loaded _ => "Error reading file"
                        end)))
       (cleared Portfolio st)) /\
  fetches (trace (submit Portfolio env st)) = [] /\
  issued_in (trace (submit Portfolio env st)) st = [].
Proof.
  destruct st as [t sm q a pf pa l e]; simpl; intros ->.
  unfold after, submit, action, handlePortfolioUpload, cleared; simpl.
  destruct (disk env file) as [[|[| | |csv| |]]|]; try discriminate; intros _;
    repeat split; reflexivity.
Qed.

(** ** The scenarios of the specification, run *)

Example scenario_apple :
  after Summary apple_env (with_ticker "AAPL")
  = apply_setter (setSummary (JStr "Apple Inc. overview...")) (with_ticker "AAPL").
Proof. reflexivity. Qed.

Example scenario_bond_500 :
  let st := after Question bond_env (with_question "What is a bond?") in
  error st = Some "HTTP Error! Status: 500" /\
  answer st = val (JStr "") /\
  loading st = false.
Proof. repeat split. Qed.

Example scenario_portfolio :
  after Portfolio csv_env (with_file portfolio_csv)
  = apply_setter (setPortfolioAnalysis (JStr "Diversification score: 7/10"))
                 (with_file portfolio_csv).
Proof. reflexivity. Qed.

Example scenario_no_file :
  submit Portfolio csv_env initial
  = mkWorld (apply_setter (setError (Some "Please upload a portfolio file")) initial)
            [EvSet (setError (Some "Please upload a portfolio file"))].
Proof. reflexivity. Qed.

(** ** Section state *)

Lemma action_writes (s : SectionId) (st : State) : only_sets (writes s) (action s st).
Proof.
  assert (Hx : forall e m b key set fb,
             (forall v, writes s (set v)) ->
             only_sets (writes s) (exchange e m b key set fb)).
  { intros e m b key set fb Hset; unfold exchange.
    apply only_sets_try_finally; [apply only_sets_try_catch|].
    - apply only_sets_bind; [apply only_sets_fetchData|]; intros data.
      apply only_sets_bind; [apply only_sets_eval|]; simpl; auto.
    - simpl; auto.
    - simpl; auto. }
  assert (Hc : forall x (p : Prog unit),
             writes s x -> only_sets (writes s) p -> only_sets (writes s) (call x ;; p)).
  { intros x p Hw Hp; apply only_sets_bind; [now apply only_sets_call | now intros _]. }
  destruct s; simpl action.
  - destruct (is_empty (ticker st)) eqn:E.
    + unfold getSummary; simpl truthy; rewrite E; now apply only_sets_call.
    + rewrite (getSummary_guarded _ E).
      repeat (apply Hc; [exact I|]); apply Hc; [reflexivity|]; now apply Hx.
  - destruct (is_empty (question st)) eqn:E.
    + unfold askQuestion; simpl truthy; rewrite E; now apply only_sets_call.
    + rewrite (askQuestion_guarded _ E).
      repeat (apply Hc; [exact I|]); apply Hc; [reflexivity|]; now apply Hx.
  - unfold handlePortfolioUpload; destruct (portfolioFile st) as [file|];
      [|now apply only_sets_call].
    repeat (apply Hc; [exact I|]); apply Hc; [reflexivity|].
    intros [[|[| | |csv| |]]|]; try (simpl; now auto).
    rewrite onload_string; now apply Hx.
Qed.

(** No handler writes an input cell. *)
Lemma inputs_kept (s : SectionId) (env : Env) (st : State) :
  ticker (after s env st) = ticker st /\
  question (after s env st) = question st /\
  portfolioFile (after s env st) = portfolioFile st.
Proof.
  unfold after, submit; repeat split;
    match goal with
    | |- ?f (ui (snd (run _ _ ?w))) = _ =>
        apply (only_sets_frame (writes s) f env (action s st));
          [intros [] ? H; simpl in H; now (reflexivity || contradiction)
          | apply action_writes]
    end.
Qed.

(** C1, amended. Each section keeps a result cell of its own, and running
    the action of one section, whatever its outcome, never changes the
    result text of another section; the loading flag and the error message
    are single cells that all three sections show. *)
Theorem other_results_kept :
  forall (s s' : SectionId) (env : Env) (st : State),
    s <> s' ->
    resultText s' (after s env st) = resultText s' st /\
    (forall st', isLoading s st' = isLoading s' st' /\
                 errorMessage s st' = errorMessage s' st').
Proof.
  intros s s' env st Hne; split; [|intros st'; split; reflexivity].
  unfold after, submit.
  apply (only_sets_frame (writes s) (resultText s') env (action s st));
    [|apply action_writes].
  intros x st0 Hx; destruct x; simpl in Hx; try contradiction;
    subst; destruct s'; try reflexivity; congruence.
Qed.

Lemma other_results_kept_witness :
  Summary <> Question /\
  resultText Question (after Summary offline (with_ticker "AAPL"))
  = resultText Question (with_ticker "AAPL").
Proof.
  split; [discriminate|].
  apply (other_results_kept (s := Summary) (s' := Question)); discriminate.
Defined.

(** C1 as stated fails: an empty-ticker press on Get Summary puts a message
    into the error that the Question section shows, and while a summary
    request is out the Question section shows the flag up. *)
Lemma error_cell_is_shared :
  errorMessage Question initial = None /\
  errorMessage Question (after Summary offline initial)
  = Some "Please enter a stock ticker 📊" /\
  isLoading Question initial = false /\
  map (fun p => isLoading Question (snd p))
      (issued_in (trace (submit Summary offline (with_ticker "AAPL")))
                 (with_ticker "AAPL"))
  = [true].
Proof. repeat split. Qed.

(** ** Guards *)

(** C2, amended. With an empty required input (the empty ticker or question
    string, no selected file) a submission issues no network call and leaves
    the loading flag as it was, so down when it was down. *)
Theorem empty_input_no_call :
  forall (s : SectionId) (env : Env) (st : State),
    input_empty s st ->
    fetches (trace (submit s env st)) = [] /\
    isLoading s (after s env st) = isLoading s st /\
    (isLoading s st = false -> isLoading s (after s env st) = false).
Proof.
  intros s env st Hempty.
  assert (Hguard : guard s st = false)
    by (destruct s; simpl in *; rewrite Hempty; reflexivity).
  destruct (@submit_guard_fails s env st Hguard) as [msg Hsub].
  unfold after; rewrite Hsub; repeat split; auto.
Qed.

Lemma empty_input_no_call_witness :
  input_empty Question initial /\
  fetches (trace (submit Question offline initial)) = [] /\
  isLoading Question (after Question offline initial) = isLoading Question initial /\
  (isLoading Question initial = false ->
   isLoading Question (after Question offline initial) = false).
Proof.
  split; [reflexivity|].
  apply (empty_input_no_call Question offline initial); reflexivity.
Defined.

(** C2 as stated fails: a ticker of one space is blank, passes the guard
    and is sent. *)
Lemma blank_ticker_is_sent :
  is_blank " " = true /\
  map fst (fetches (trace (submit Summary offline (with_ticker " "))))
  = [mkRequest "/intellivest-back-end.py/summary/ "
               (mkConfig "GET" [("Content-Type", "application/json")] None)].
Proof. split; reflexivity. Qed.

(** C3, amended. Submitting the Summary action with the empty ticker sets
    the error message to the text followed by a space and the bar-chart
    emoji. *)
Theorem empty_ticker_message :
  forall (env : Env) (st : State),
    ticker st = "" ->
    errorMessage Summary (after Summary env st)
    = Some "Please enter a stock ticker 📊".
Proof.
  intros env st H; unfold after, submit, action, getSummary.
  rewrite H; reflexivity.
Qed.

Lemma empty_ticker_message_witness :
  ticker initial = "" /\
  errorMessage Summary (after Summary offline initial)
  = Some "Please enter a stock ticker 📊".
Proof.
  split; [reflexivity|].
  apply (empty_ticker_message offline initial); reflexivity.
Defined.

(** C3 as stated fails: the message set for the empty ticker is not the
    bare text. *)
Lemma bare_ticker_text_refuted :
  ticker initial = "" /\
  errorMessage Summary (after Summary offline initial)
  <> Some "Please enter a stock ticker".
Proof. split; [reflexivity | discriminate]. Qed.

(** ** Outcomes of a guarded submission *)

(** Past its guard a submission either sends a text, or it is a portfolio
    upload whose read gave no string. *)
Lemma guarded_cases (s : SectionId) (env : Env) (st : State) :
  guard s st = true ->
  (exists input, text_input s env st = Some input) \/
  (s = Portfolio /\ exists file,
      portfolioFile st = Some file /\ text_input Portfolio env st = None).
Proof.
  destruct s; simpl.
  - intros H; apply negb_true_iff in H; rewrite H; eauto.
  - intros H; apply negb_true_iff in H; rewrite H; eauto.
  - destruct (portfolioFile st) as [file|]; [intros _|discriminate].
    destruct (disk env file) as [[|[| | |csv| |]]|]; eauto 6.
Qed.

Lemma submit_begins (s : SectionId) (env : Env) (st : State) :
  guard s st = true ->
  exists p : Prog unit,
    submit s env st =
    snd (run env p
           (update (setResult s (JStr ""))
              (update (setError None) (update (setLoading true) (mkWorld st []))))).
Proof.
  destruct s; simpl; unfold submit, action.
  - intros H; apply negb_true_iff in H.
    rewrite (getSummary_guarded _ H), !run_call; eauto.
  - intros H; apply negb_true_iff in H.
    rewrite (askQuestion_guarded _ H), !run_call; eauto.
  - unfold handlePortfolioUpload; destruct (portfolioFile st); [intros _|discriminate].
    rewrite !run_call; eauto.
Qed.

Lemma resultText_settled (s : SectionId) (r : Error + Value) (st : State) :
  resultText s (settled s r (cleared s st)) =
  match r with inl _ => val (JStr "") | inr v => v end.
Proof. destruct s, r; reflexivity. Qed.

Lemma errorMessage_settled (s : SectionId) (r : Error + Value) (st : State) :
  errorMessage s (settled s r (cleared s st)) =
  match r with
  | inl e => Some (or_else (message e) (fallback s))
  | inr _ => None
  end.
Proof. destruct s, r; reflexivity. Qed.

Lemma isLoading_settled (s : SectionId) (r : Error + Value) (st : State) :
  isLoading s (settled s r st) = false.
Proof. reflexivity. Qed.

(** A 2xx response whose payload is an object: the protected block ends
    with the value of the field, or [undefined] when the object has none. *)
Lemma settle_payload (key : string) (resp : Response) (data : JSON) :
  ok resp = true -> json resp = inr data -> data <> JNull ->
  settle key (Resolved resp) =
  inr (match field data key with Some v => val v | None => undefined end).
Proof.
  intros Hok Hjson Hnull; unfold settle, gateway; rewrite Hok, Hjson.
  destruct data; try reflexivity; congruence.
Qed.

(** C5. For each of the three actions, when the input is not empty (and,
    for the upload, the file has been read) and the backend answers the
    request with a 2xx response whose JSON payload has the section's field
    ([summary], [answer], [analysis]), the result text is exactly the value
    of that field and the error message is absent. *)
Theorem success_sets_result :
  forall (s : SectionId) (env : Env) (st : State)
         (input : string) (resp : Response) (data v : JSON),
    text_input s env st = Some input ->
    net env (request s input) = Resolved resp ->
    ok resp = true ->
    json resp = inr data ->
    field data (resultField s) = Some v ->
    resultText s (after s env st) = val v /\
    errorMessage s (after s env st) = None.
Proof.
  intros s env st input resp data v Hin Hnet Hok Hjson Hfield.
  destruct (@submit_sends s env st input Hin) as [-> _].
  rewrite Hnet, resultText_settled, errorMessage_settled.
  rewrite (@settle_payload _ resp data), Hfield; auto.
  intros ->; discriminate.
Qed.

Lemma success_sets_result_witness :
  text_input Summary apple_env (with_ticker "AAPL") = Some "AAPL" /\
  resultText Summary (after Summary apple_env (with_ticker "AAPL"))
  = val (JStr "Apple Inc. overview...") /\
  errorMessage Summary (after Summary apple_env (with_ticker "AAPL")) = None.
Proof.
  split; [reflexivity|].
  apply (@success_sets_result Summary apple_env (with_ticker "AAPL") "AAPL"
           (mkResponse 200 (inr (JObj [("summary", JStr "Apple Inc. overview...")])))
           (JObj [("summary", JStr "Apple Inc. overview...")])
           (JStr "Apple Inc. overview..."));
    reflexivity.
Defined.

(** C6. For each of the three actions, a submission that passes its guard
    ends with the loading flag down, whether the call succeeds, the gateway
    fails or the file cannot be read. *)
Theorem guarded_submission_ends_idle :
  forall (s : SectionId) (env : Env) (st : State),
    guard s st = true ->
    isLoading s (after s env st) = false.
Proof.
  intros s env st Hguard.
  destruct (@guarded_cases s env st Hguard) as [[input Hin]|[-> [file [Hfile Hin]]]].
  - destruct (@submit_sends s env st input Hin) as [-> _]; apply isLoading_settled.
  - destruct (@submit_unreadable env st file Hfile Hin) as [-> _]; reflexivity.
Qed.

Lemma guarded_submission_ends_idle_witness :
  guard Portfolio (with_file portfolio_csv) = true /\
  isLoading Portfolio (after Portfolio offline (with_file portfolio_csv)) = false.
Proof.
  split; [reflexivity|].
  apply (@guarded_submission_ends_idle Portfolio offline (with_file portfolio_csv));
    reflexivity.
Defined.

(** C7. A submission that passes its guard starts by raising the flag and
    clearing the error message and the section's result; every request it
    issues is issued with both still cleared; and once it has settled, the
    section does not have both a non-empty result text and an error
    message. *)
Theorem cleared_then_exclusive :
  forall (s : SectionId) (env : Env) (st : State),
    guard s st = true ->
    (exists rest,
        trace (submit s env st) =
        EvSet (setLoading true) :: EvSet (setError None)
              :: EvSet (setResult s (JStr "")) :: rest) /\
    Forall (fun issued =>
              resultText s (snd issued) = val (JStr "") /\
              errorMessage s (snd issued) = None)
           (issued_in (trace (submit s env st)) st) /\
    ~ (truthy (resultText s (after s env st)) = true /\
       errorMessage s (after s env st) <> None).
Proof.
  intros s env st Hguard; split; [|split].
  - destruct (@submit_begins s env st Hguard) as [p ->].
    destruct (run_trace env p
                (update (setResult s (JStr ""))
                   (update (setError None) (update (setLoading true) (mkWorld st [])))))
      as [t [-> _]].
    exists t; reflexivity.
  - destruct (@guarded_cases s env st Hguard) as [[input Hin]|[-> [file [Hfile Hin]]]].
    + destruct (@submit_sends s env st input Hin) as [_ [_ ->]].
      constructor; [|constructor]; destruct s; split; reflexivity.
    + destruct (@submit_unreadable env st file Hfile Hin) as [_ [_ ->]]; constructor.
  - intros [Hresult Herror].
    destruct (@guarded_cases s env st Hguard) as [[input Hin]|[-> [file [Hfile Hin]]]].
    + destruct (@submit_sends s env st input Hin) as [Hafter _].
      rewrite Hafter, resultText_settled in Hresult.
      rewrite Hafter, errorMessage_settled in Herror.
      destruct (settle (resultField s) (net env (request s input)));
        [discriminate | congruence].
    + destruct (@submit_unreadable env st file Hfile Hin) as [Hafter _].
      rewrite Hafter in Hresult; discriminate.
Qed.

Lemma cleared_then_exclusive_witness :
  guard Question (with_question "What is a bond?") = true /\
  (exists rest,
      trace (submit Question bond_env (with_question "What is a bond?")) =
      EvSet (setLoading true) :: EvSet (setError None)
            :: EvSet (setResult Question (JStr "")) :: rest) /\
  Forall (fun issued =>
            resultText Question (snd issued) = val (JStr "") /\
            errorMessage Question (snd issued) = None)
         (issued_in (trace (submit Question bond_env (with_question "What is a bond?")))
                    (with_question "What is a bond?")) /\
  ~ (truthy (resultText Question
               (after Question bond_env (with_question "What is a bond?"))) = true /\
     errorMessage Question
       (after Question bond_env (with_question "What is a bond?")) <> None).
Proof.
  split; [reflexivity|].
  apply (@cleared_then_exclusive Question bond_env (with_question "What is a bond?"));
    reflexivity.
Defined.

(** C8, amended. For a portfolio upload with a selected file: when the
    reader reports an error, the message is "Failed to read the file.", the
    flag ends down and no network call is issued.  Content that is not text
    does not fail the read: whatever string the reader loads is sent, as
    [csvData], in the one call of the submission. *)
Theorem read_failure_message :
  forall (env : Env) (st : State) (file : File),
    portfolioFile st = Some file ->
    (disk env file = ReadFailed ->
     errorMessage Portfolio (after Portfolio env st) = Some "Failed to read the file." /\
     isLoading Portfolio (after Portfolio env st) = false /\
     fetches (trace (submit Portfolio env st)) = []) /\
    (forall loaded,
        disk env file = Loaded (JStr loaded) ->
        fetches (trace (submit Portfolio env st))
        = [(request Portfolio loaded, net env (request Portfolio loaded))] /\
        body (config (request Portfolio loaded))
        = Some (JSON_stringify (JObj [("csvData", JStr loaded)]))).
Proof.
  intros env st file Hfile; split.
  - intros Hdisk.
    destruct (@submit_unreadable env st file Hfile) as [-> [-> _]];
      [simpl; now rewrite Hfile, Hdisk|].
    rewrite Hdisk; repeat split.
  - intros loaded Hdisk.
    destruct (@submit_sends Portfolio env st loaded) as [_ [-> _]];
      [simpl; now rewrite Hfile, Hdisk|].
    split; reflexivity.
Qed.

Lemma read_failure_message_witness :
  portfolioFile (with_file portfolio_csv) = Some portfolio_csv /\
  disk offline portfolio_csv = ReadFailed /\
  errorMessage Portfolio (after Portfolio offline (with_file portfolio_csv))
  = Some "Failed to read the file." /\
  isLoading Portfolio (after Portfolio offline (with_file portfolio_csv)) = false /\
  fetches (trace (submit Portfolio offline (with_file portfolio_csv))) = [].
Proof.
  split; [reflexivity|]. split; [reflexivity|].
  apply (proj1 (@read_failure_message offline (with_file portfolio_csv) portfolio_csv
                  eq_refl)); reflexivity.
Defined.

(** C8 as stated fails for content that is not text: the reader decodes
    the bytes of a picture into a string, the handler takes the string
    branch and posts it, and "Error reading file" is never set. *)
Lemma picture_is_sent :
  portfolioFile (with_file picture) = Some picture /\
  disk picture_env picture = Loaded (JStr "�PNG") /\
  map fst (fetches (trace (submit Portfolio picture_env (with_file picture))))
  = [mkRequest "/intellivest-back-end.py/portfolio/analyze"
               (mkConfig "POST" [("Content-Type", "application/json")]
                  (Some (JSON_stringify (JObj [("csvData", JStr "�PNG")]))))] /\
  errorMessage Portfolio (after Portfolio picture_env (with_file picture))
  <> Some "Error reading file".
Proof. repeat split; discriminate. Qed.

(** ** Repetition *)



(** ** Payloads without the field *)

(** C10, amended. For each of the three actions, a 2xx response whose JSON
    body is not [null] and has no own property of the section's name
    completes the action with no error message and with the result text
    [undefined]. *)
Theorem missing_field_is_silent :
  forall (s : SectionId) (env : Env) (st : State)
         (input : string) (resp : Response) (data : JSON),
    text_input s env st = Some input ->
    net env (request s input) = Resolved resp ->
    ok resp = true ->
    json resp = inr data ->
    data <> JNull ->
    field data (resultField s) = None ->
    errorMessage s (after s env st) = None /\
    resultText s (after s env st) = undefined.
Proof.
  intros s env st input resp data Hin Hnet Hok Hjson Hnull Hfield.
  destruct (@submit_sends s env st input Hin) as [-> _].
  rewrite Hnet, resultText_settled, errorMessage_settled.
  rewrite (@settle_payload _ resp data), Hfield; auto.
Qed.

Lemma missing_field_is_silent_witness :
  text_input Summary empty_object_env (with_ticker "AAPL") = Some "AAPL" /\
  errorMessage Summary (after Summary empty_object_env (with_ticker "AAPL")) = None /\
  resultText Summary (after Summary empty_object_env (with_ticker "AAPL")) = undefined.
Proof.
  split; [reflexivity|].
  apply (@missing_field_is_silent Summary empty_object_env (with_ticker "AAPL") "AAPL"
           (mkResponse 200 (inr (JObj []))) (JObj []));
    [reflexivity | reflexivity | reflexivity | reflexivity | discriminate | reflexivity].
Defined.

(** C10 as stated fails: the body [null] is a 2xx JSON body without the
    field, and reading the field from it throws, so the action ends with an
    error message. *)
Lemma null_body_sets_error :
  fetches (trace (submit Summary null_env (with_ticker "AAPL")))
  = [(request Summary "AAPL", answers 200 JNull)] /\
  ok (mkResponse 200 (inr JNull)) = true /\
  field JNull (resultField Summary) = None /\
  errorMessage Summary (after Summary null_env (with_ticker "AAPL"))
  = Some (null_read_message "summary") /\
  errorMessage Summary (after Summary null_env (with_ticker "AAPL")) <> None.
Proof. repeat split; discriminate. Qed.

(** * Further properties of the component *)

(** ** The gateway's side effects *)

Lemma logged_app (t1 t2 : list Event) :
  logged (t1 ++ t2) = (logged t1 ++ logged t2)%list.
Proof.
  induction t1 as [|[s|req res|l e|f res] t1 IH]; simpl; auto.
  now rewrite IH.
Qed.

Lemma io_app (t1 t2 : list Event) : io (t1 ++ t2) = (io t1 ++ io t2)%list.
Proof.
  induction t1 as [|[s|req res|l e|f res] t1 IH]; simpl; auto; now rewrite IH.
Qed.

Lemma pending_in_app (t1 t2 : list Event) (st : State) :
  pending_in (t1 ++ t2) st = (pending_in t1 st ++ pending_in t2 (replay t1 st))%list.
Proof.
  revert st; induction t1 as [|[s|req res|l e|f res] t1 IH]; simpl; auto;
    intros st; now rewrite IH.
Qed.

(** X1. [fetchData] writes no state cell, and it writes to the console
    exactly the error it throws: one entry when it fails, none when it
    returns. *)
Theorem fetchData_side_effects :
  forall (env : Env) (endpoint method : string) (body : Value) (w : World),
    let r := run env (fetchData endpoint method body) w in
    ui (snd r) = ui w /\
    logged (trace (snd r)) =
    (logged (trace w) ++ match fst r with inl e => [e] | inr _ => [] end)%list.
Proof.
  intros env endpoint method body w; cbv zeta; rewrite run_fetchData; cbv zeta.
  destruct (gateway (net env (gateway_request endpoint method body))) as [e|data];
    simpl; rewrite !logged_app; simpl; rewrite ?app_nil_r; auto.
Qed.

(** ** Errors stop at the handlers *)

Lemma exchange_completes (env : Env) (endpoint method : string) (body : Value)
      (key : string) (store : Value -> Setter) (generic : string) (w : World) :
  fst (run env (exchange endpoint method body key store generic) w) = inr tt.
Proof.
  assert (Hcall : forall x v, run env (call x) v = (inr tt, update x v))
    by reflexivity.
  unfold exchange; rewrite run_try_finally, Hcall, run_try_catch.
  match goal with
  | |- context [run env ?p w] => destruct (run env p w) as [[e|[]] w']
  end; rewrite ?Hcall; reflexivity.
Qed.

(** X2. No handler lets an exception escape: the three actions and the
    three input handlers always complete normally, whatever the backend
    answers and whatever the reader does. *)
Theorem handlers_never_throw :
  forall (env : Env) (ev : UserEvent) (st : State) (w : World),
    fst (run env (handler ev st) w) = inr tt.
Proof.
  intros env [v|v|[[|file files]|]|[| |]] st w; simpl handler; try reflexivity.
  - destruct (is_empty (ticker st)) eqn:E.
    + unfold getSummary; simpl truthy; rewrite E; reflexivity.
    + rewrite (getSummary_guarded _ E), !run_call; apply exchange_completes.
  - destruct (is_empty (question st)) eqn:E.
    + unfold askQuestion; simpl truthy; rewrite E; reflexivity.
    + rewrite (askQuestion_guarded _ E), !run_call; apply exchange_completes.
  - unfold handlePortfolioUpload; destruct (portfolioFile st) as [file|];
      [|reflexivity].
    rewrite !run_call; simpl.
    destruct (disk env file) as [[|[| | |csv| |]]|]; try reflexivity.
    rewrite onload_string; apply exchange_completes.
Qed.

(** ** Failures of the call *)

Lemma or_else_nonempty (a b : string) :
  is_empty b = false -> is_empty (or_else a b) = false.
Proof. unfold or_else; destruct (is_empty a) eqn:E; auto. Qed.

Lemma fallback_nonempty (s : SectionId) : is_empty (fallback s) = false.
Proof. destruct s; reflexivity. Qed.

(** A submission that sends [input], when the gateway throws [e] for the
    backend's answer: the message of [e], or the section's own text when
    [e] has none, becomes the error; the result stays cleared and the flag
    ends down. *)
Lemma failed_call (s : SectionId) (env : Env) (st : State) (input : string) (e : Error) :
  text_input s env st = Some input ->
  gateway (net env (request s input)) = inl e ->
  errorMessage s (after s env st) = Some (or_else (message e) (fallback s)) /\
  resultText s (after s env st) = val (JStr "") /\
  isLoading s (after s env st) = false.
Proof.
  intros Hin Hgw.
  destruct (@submit_sends s env st input Hin) as [-> _].
  rewrite resultText_settled, errorMessage_settled.
  unfold settle; rewrite Hgw; auto.
Qed.

(** X3. For each action, when the input is not empty (and, for the upload,
    the file has been read) and the backend answers the request with a
    status outside 200-299, the submission ends with the error message
    "HTTP Error! Status: " followed by the status, an empty result text and
    the flag down; the body of such a response is never read. *)
Theorem bad_status_message :
  forall (s : SectionId) (env : Env) (st : State) (input : string) (resp : Response),
    text_input s env st = Some input ->
    net env (request s input) = Resolved resp ->
    ok resp = false ->
    errorMessage s (after s env st)
    = Some ("HTTP Error! Status: " ++ number_to_string (status resp)) /\
    resultText s (after s env st) = val (JStr "") /\
    isLoading s (after s env st) = false.
Proof.
  intros s env st input resp Hin Hnet Hok.
  apply (@failed_call s env st input (HttpError (status resp)) Hin).
  rewrite Hnet; unfold gateway; now rewrite Hok.
Qed.

Lemma bad_status_message_witness :
  text_input Question bond_env (with_question "What is a bond?")
  = Some "What is a bond?" /\
  errorMessage Question (after Question bond_env (with_question "What is a bond?"))
  = Some ("HTTP Error! Status: " ++ number_to_string 500) /\
  resultText Question (after Question bond_env (with_question "What is a bond?"))
  = val (JStr "") /\
  isLoading Question (after Question bond_env (with_question "What is a bond?")) = false.
Proof.
  split; [reflexivity|].
  apply (@bad_status_message Question bond_env (with_question "What is a bond?")
           "What is a bond?" (mkResponse 500 (inr JNull)));
    reflexivity.
Defined.

(** X4. For each action, when the input is not empty (and, for the upload,
    the file has been read) and [fetch] rejects the request, the error
    message is the message of the rejection, or the section's own text
    ("Failed to fetch summary", "Failed to get answer", "Failed to analyze
    portfolio") when that message is empty; the result text is empty and
    the flag is down. *)
Theorem rejected_call_message :
  forall (s : SectionId) (env : Env) (st : State) (input : string) (cause : Error),
    text_input s env st = Some input ->
    net env (request s input) = Rejected cause ->
    errorMessage s (after s env st)
    = Some (if is_empty (message cause) then fallback s else message cause) /\
    resultText s (after s env st) = val (JStr "") /\
    isLoading s (after s env st) = false.
Proof.
  intros s env st input cause Hin Hnet.
  apply (@failed_call s env st input cause Hin).
  now rewrite Hnet.
Qed.

Lemma rejected_call_message_witness :
  text_input Summary silent_env (with_ticker "AAPL") = Some "AAPL" /\
  errorMessage Summary (after Summary silent_env (with_ticker "AAPL"))
  = Some "Failed to fetch summary" /\
  resultText Summary (after Summary silent_env (with_ticker "AAPL")) = val (JStr "") /\
  isLoading Summary (after Summary silent_env (with_ticker "AAPL")) = false.
Proof.
  split; [reflexivity|].
  apply (@rejected_call_message Summary silent_env (with_ticker "AAPL") "AAPL"
           (mkError "Error" ""));
    reflexivity.
Defined.

(** X5. For each action, when the input is not empty (and, for the upload,
    the file has been read) and the backend answers the request with a 2xx
    response whose body does not parse as JSON, the submission ends like a
    failed call: the parser's message (or the section's own text when it
    is empty) is the error message, the result text is empty and the flag
    is down. *)
Theorem unparsable_body_message :
  forall (s : SectionId) (env : Env) (st : State)
         (input : string) (resp : Response) (e : Error),
    text_input s env st = Some input ->
    net env (request s input) = Resolved resp ->
    ok resp = true ->
    json resp = inl e ->
    errorMessage s (after s env st)
    = Some (if is_empty (message e) then fallback s else message e) /\
    resultText s (after s env st) = val (JStr "") /\
    isLoading s (after s env st) = false.
Proof.
  intros s env st input resp e Hin Hnet Hok Hjson.
  apply (@failed_call s env st input e Hin).
  rewrite Hnet; unfold gateway; now rewrite Hok.
Qed.

Lemma unparsable_body_message_witness :
  text_input Summary garbled_env (with_ticker "AAPL") = Some "AAPL" /\
  errorMessage Summary (after Summary garbled_env (with_ticker "AAPL"))
  = Some "Unexpected token '<'" /\
  resultText Summary (after Summary garbled_env (with_ticker "AAPL")) = val (JStr "") /\
  isLoading Summary (after Summary garbled_env (with_ticker "AAPL")) = false.
Proof.
  split; [reflexivity|].
  apply (@unparsable_body_message Summary garbled_env (with_ticker "AAPL") "AAPL"
           (mkResponse 200 (inl (mkError "SyntaxError" "Unexpected token '<'")))
           (mkError "SyntaxError" "Unexpected token '<'"));
    reflexivity.
Defined.

(** ** What a submission reads and sends *)

Section ExchangeIO.

Variables (env : Env) (endpoint method : string) (body : Value) (key : string).
Variables (store : Value -> Setter) (generic : string) (w : World).

Lemma exchange_io :
  io (trace (snd (run env (exchange endpoint method body key store generic) w))) =
  (io (trace w)
   ++ [EvFetch (gateway_request endpoint method body)
               (net env (gateway_request endpoint method body))])%list.
Proof.
  unfold exchange.
  rewrite run_try_finally, run_try_catch, run_bind, run_fetchData; cbv zeta.
  destruct (gateway (net env _)) as [e|data]; simpl.
  - rewrite !io_app; simpl; now rewrite !app_nil_r.
  - rewrite run_bind.
    destruct (JS.get data key) as [e|v]; simpl;
      rewrite !io_app; simpl; now rewrite !app_nil_r.
Qed.

Lemma exchange_pending_in (st : State) :
  pending_in (trace (snd (run env (exchange endpoint method body key store generic) w))) st =
  (pending_in (trace w) st ++ [replay (trace w) st])%list.
Proof.
  unfold exchange.
  rewrite run_try_finally, run_try_catch, run_bind, run_fetchData; cbv zeta.
  destruct (gateway (net env _)) as [e|data]; simpl.
  - rewrite !pending_in_app; simpl; now rewrite !app_nil_r.
  - rewrite run_bind.
    destruct (JS.get data key) as [e|v]; simpl;
      rewrite !pending_in_app; simpl; now rewrite !app_nil_r.
Qed.

End ExchangeIO.

(** The reads and calls of a submission, and the state they start in. *)
Lemma submit_io (s : SectionId) (env : Env) (st : State) :
  io (trace (submit s env st)) =
  ((match s, portfolioFile st with
    | Portfolio, Some file => [EvRead file (disk env file)]
    | _, _ => []
    end)
   ++ match text_input s env st with
      | Some input => [EvFetch (request s input) (net env (request s input))]
      | None => []
      end)%list /\
  pending_in (trace (submit s env st)) st =
  map (fun _ => cleared s st) (io (trace (submit s env st))).
Proof.
  destruct s; simpl text_input.
  - destruct (is_empty (ticker st)) eqn:E.
    + unfold submit, action, getSummary; simpl truthy; rewrite E; split; reflexivity.
    + unfold submit, action; rewrite (getSummary_guarded _ E), !run_call.
      rewrite exchange_io, exchange_pending_in; split; reflexivity.
  - destruct (is_empty (question st)) eqn:E.
    + unfold submit, action, askQuestion; simpl truthy; rewrite E; split; reflexivity.
    + unfold submit, action; rewrite (askQuestion_guarded _ E), !run_call.
      rewrite exchange_io, exchange_pending_in; split; reflexivity.
  - destruct (portfolioFile st) as [file|] eqn:Hfile.
    + destruct (disk env file) as [[|[| | |csv| |]]|] eqn:Hdisk;
        try (unfold submit, action, handlePortfolioUpload;
             rewrite Hfile, !run_call; simpl; rewrite Hdisk; split; reflexivity).
      rewrite (handlePortfolioUpload_loaded _ _ Hfile Hdisk), onload_string.
      rewrite exchange_io, exchange_pending_in; split; reflexivity.
    + unfold submit, action, handlePortfolioUpload; rewrite Hfile; split; reflexivity.
Qed.

Lemma reads_io (t : list Event) : reads (io t) = reads t.
Proof.
  induction t as [|[s|req res|l e|f res] t IH]; simpl; auto; now rewrite IH.
Qed.

Lemma fetches_io (t : list Event) : fetches (io t) = fetches t.
Proof.
  induction t as [|[s|req res|l e|f res] t IH]; simpl; auto; now rewrite IH.
Qed.

(** X6. A submission makes at most one network call and at most one file
    read.  Only the portfolio upload reads, and it reads the selected file;
    a read always comes before the call, and a read that fails or loads no
    string is followed by no call. *)
Theorem one_read_then_one_call :
  forall (s : SectionId) (env : Env) (st : State),
    let t := trace (submit s env st) in
    List.length (fetches t) <= 1 /\
    reads t = match s, portfolioFile st with
              | Portfolio, Some file => [(file, disk env file)]
              | _, _ => []
              end /\
    io t = (map (fun r => EvRead (fst r) (snd r)) (reads t)
            ++ map (fun c => EvFetch (fst c) (snd c)) (fetches t))%list /\
    (forall file, In (file, ReadFailed) (reads t) -> fetches t = []) /\
    (forall file result,
        In (file, Loaded result) (reads t) -> is_string result = false ->
        fetches t = []).
Proof.
  intros s env st t; subst t.
  destruct (submit_io s env st) as [Hio _].
  rewrite <- (reads_io (trace _)), <- (fetches_io (trace _)), Hio.
  destruct s; simpl text_input; simpl guard.
  - destruct (is_empty (ticker st)); simpl; repeat split; auto; intros; contradiction.
  - destruct (is_empty (question st)); simpl; repeat split; auto; intros; contradiction.
  - destruct (portfolioFile st) as [file|]; simpl;
      [|repeat split; auto; intros; contradiction].
    destruct (disk env file) as [[|[| | |csv| |]]|]; simpl; repeat split; auto;
      intros; repeat match goal with
                     | H : _ \/ _ |- _ => destruct H
                     | H : (_, _) = (_, _) |- _ => inversion H; subst; clear H
                     | H : False |- _ => contradiction
                     end; auto; discriminate.
Qed.

Lemma one_read_then_one_call_witness :
  In (portfolio_csv, ReadFailed)
     (reads (trace (submit Portfolio offline (with_file portfolio_csv)))) /\
  fetches (trace (submit Portfolio offline (with_file portfolio_csv))) = [].
Proof.
  split; [left; reflexivity|].
  destruct (one_read_then_one_call Portfolio offline (with_file portfolio_csv))
    as [_ [_ [_ [Hfailed _]]]].
  apply (Hfailed portfolio_csv); left; reflexivity.
Defined.

(** X7. The request each action sends: the summary is a GET of
    [/summary/] followed by the ticker as typed, with no body; the question
    is a POST to [/question] whose body is the object with the one property
    [question]; the upload is a POST to [/portfolio/analyze] whose body is
    the object with the one property [csvData] holding the text read.  All
    three go to the fixed base address with the JSON content type. *)
Theorem requests_sent :
  forall (env : Env) (st : State),
    let json_type := [("Content-Type", "application/json")] in
    (ticker st <> "" ->
     map fst (fetches (trace (submit Summary env st)))
     = [mkRequest ("/intellivest-back-end.py/summary/" ++ ticker st)
                  (mkConfig "GET" json_type None)]) /\
    (question st <> "" ->
     map fst (fetches (trace (submit Question env st)))
     = [mkRequest "/intellivest-back-end.py/question"
                  (mkConfig "POST" json_type
                     (Some (JSON_stringify (JObj [("question", JStr (question st))]))))]) /\
    (forall file csv,
        portfolioFile st = Some file -> disk env file = Loaded (JStr csv) ->
        map fst (fetches (trace (submit Portfolio env st)))
        = [mkRequest "/intellivest-back-end.py/portfolio/analyze"
                     (mkConfig "POST" json_type
                        (Some (JSON_stringify (JObj [("csvData", JStr csv)]))))]).
Proof.
  intros env st json_type; repeat split.
  - intros Hne.
    destruct (@submit_sends Summary env st (ticker st)) as [_ [-> _]]; [|reflexivity].
    simpl; destruct (ticker st); [congruence | reflexivity].
  - intros Hne.
    destruct (@submit_sends Question env st (question st)) as [_ [-> _]]; [|reflexivity].
    simpl; destruct (question st); [congruence | reflexivity].
  - intros file csv Hfile Hdisk.
    destruct (@submit_sends Portfolio env st csv) as [_ [-> _]]; [|reflexivity].
    simpl; now rewrite Hfile, Hdisk.
Qed.

Lemma requests_sent_witness :
  ticker (with_ticker "AAPL") <> "" /\
  map fst (fetches (trace (submit Summary apple_env (with_ticker "AAPL"))))
  = [mkRequest ("/intellivest-back-end.py/summary/" ++ ticker (with_ticker "AAPL"))
               (mkConfig "GET" [("Content-Type", "application/json")] None)] /\
  portfolioFile (with_file portfolio_csv) = Some portfolio_csv /\
  disk csv_env portfolio_csv = Loaded (JStr "ticker,shares") /\
  map fst (fetches (trace (submit Portfolio csv_env (with_file portfolio_csv))))
  = [mkRequest "/intellivest-back-end.py/portfolio/analyze"
               (mkConfig "POST" [("Content-Type", "application/json")]
                  (Some (JSON_stringify (JObj [("csvData", JStr "ticker,shares")]))))].
Proof.
  split; [discriminate|]. split.
  - apply (proj1 (requests_sent apple_env (with_ticker "AAPL"))); discriminate.
  - split; [reflexivity|]. split; [reflexivity|].
    apply (proj2 (proj2 (requests_sent csv_env (with_file portfolio_csv)))
             portfolio_csv "ticker,shares"); reflexivity.
Defined.

(** X8. A submission stopped by its guard does one thing: it sets the
    error message to the section's text ("Please enter a question",
    "Please upload a portfolio file", and the ticker text with its emoji).
    The results, the inputs and the flag stay as they were, and nothing is
    read, sent or logged. *)
Theorem guard_failure_only_sets_error :
  forall (s : SectionId) (env : Env) (st : State),
    input_empty s st ->
    submit s env st =
    mkWorld (apply_setter (setError (Some (validation_message s))) st)
            [EvSet (setError (Some (validation_message s)))].
Proof.
  intros s env st Hempty; destruct s; simpl in Hempty; unfold submit, action.
  - unfold getSummary; rewrite Hempty; reflexivity.
  - unfold askQuestion; rewrite Hempty; reflexivity.
  - unfold handlePortfolioUpload; rewrite Hempty; reflexivity.
Qed.

Lemma guard_failure_only_sets_error_witness :
  input_empty Portfolio (with_ticker "AAPL") /\
  submit Portfolio csv_env (with_ticker "AAPL") =
  mkWorld (apply_setter (setError (Some (validation_message Portfolio)))
                        (with_ticker "AAPL"))
          [EvSet (setError (Some (validation_message Portfolio)))].
Proof.
  split; [reflexivity|].
  apply (@guard_failure_only_sets_error Portfolio csv_env (with_ticker "AAPL"));
    reflexivity.
Defined.

(** ** What the page shows *)

Lemma alerts_value_and (v : Value) (n : Node) :
  (forall t m, n <> Alert t m) -> (forall c, n <> Div c) ->
  flat_map alerts (value_and v n) = [].
Proof.
  intros Ha Hd; unfold value_and.
  destruct (truthy v).
  - destruct n; simpl; auto; [exfalso; eapply Hd | exfalso; eapply Ha]; reflexivity.
  - destruct v as [|[]]; reflexivity.
Qed.

Lemma alerts_render (st : State) :
  alerts (render st) =
  match error st with
  | Some m => if is_empty m then [] else [m]
  | None => []
  end.
Proof.
  unfold render; simpl.
  rewrite !flat_map_app; simpl.
  rewrite !alerts_value_and by (intros; discriminate).
  unfold error_and; destruct (error st) as [m|]; [destruct (is_empty m)|]; reflexivity.
Qed.

Lemma controls_value_and (v : Value) (w : Value) (r : nat) :
  flat_map disabled_props (value_and v (Textarea w r)) = [] /\
  flat_map captions (value_and v (Textarea w r)) = [].
Proof.
  unfold value_and; destruct (truthy v); [split; reflexivity|].
  destruct v as [|[]]; split; reflexivity.
Qed.

Lemma controls_error_and (e : option string) :
  flat_map disabled_props (error_and e (fun m => Alert "Error" m)) = [] /\
  flat_map captions (error_and e (fun m => Alert "Error" m)) = [].
Proof.
  unfold error_and; destruct e as [m|]; [destruct (is_empty m)|]; split; reflexivity.
Qed.

Lemma controls_render (st : State) :
  disabled_props (render st) = repeat (loading st) 6 /\
  captions (render st) =
  if loading st
  then [(Summary, "Loading..."); (Question, "Loading..."); (Portfolio, "Loading...")]
  else [(Summary, "Get Summary"); (Question, "Get Answer");
        (Portfolio, "Analyze Portfolio")].
Proof.
  unfold render; simpl.
  rewrite !flat_map_app; simpl.
  rewrite !(proj1 (controls_value_and _ _ _)), !(proj2 (controls_value_and _ _ _)).
  rewrite (proj1 (controls_error_and _)), (proj2 (controls_error_and _)).
  destruct (loading st); split; reflexivity.
Qed.

(** Whatever a submission leaves in the error cell is a non-empty text. *)
Lemma error_after_nonempty (s : SectionId) (env : Env) (st : State) (m : string) :
  error (after s env st) = Some m -> is_empty m = false.
Proof.
  destruct (guard s st) eqn:Hg.
  - destruct (@guarded_cases s env st Hg) as [[input Hin]|[-> [file [Hfile Hin]]]].
    + destruct (@submit_sends s env st input Hin) as [-> _].
      change (errorMessage s (settled s (settle (resultField s) (net env (request s input)))
                                      (cleared s st)) = Some m -> is_empty m = false).
      rewrite errorMessage_settled.
      destruct (settle _ _) as [e|v]; [|discriminate].
      intros [= <-]; apply or_else_nonempty, fallback_nonempty.
    + destruct (@submit_unreadable env st file Hfile Hin) as [-> _]; simpl.
      destruct (disk env file); intros [= <-]; reflexivity.
  - destruct (@submit_guard_fails s env st Hg) as [msg Hsub].
    assert (Hempty : input_empty s st).
    { destruct s; simpl in *.
      - destruct (ticker st); [reflexivity | discriminate].
      - destruct (question st); [reflexivity | discriminate].
      - destruct (portfolioFile st); [discriminate | reflexivity]. }
    clear msg Hsub; unfold after, submit.
    destruct s; simpl in Hempty; unfold action.
    + unfold getSummary; rewrite Hempty; intros [= <-]; reflexivity.
    + unfold askQuestion; rewrite Hempty; intros [= <-]; reflexivity.
    + unfold handlePortfolioUpload; rewrite Hempty; intros [= <-]; reflexivity.
Qed.

(** X9. After any submission the page shows the error cell faithfully: one
    alert carrying the message when the cell holds one, no alert when it
    is [null].  No handler ever stores the empty text, which the page would
    not show. *)
Theorem error_is_displayed :
  forall (s : SectionId) (env : Env) (st : State),
    alerts (render (after s env st)) =
    match errorMessage s (after s env st) with
    | Some m => [m]
    | None => []
    end.
Proof.
  intros s env st; rewrite alerts_render; unfold errorMessage.
  destruct (error (after s env st)) as [m|] eqn:E; [|reflexivity].
  now rewrite (error_after_nonempty _ _ _ E).
Qed.

(** X10. While a submission has its file read or its network call out,
    the page is locked: all three inputs and all three buttons are rendered
    disabled and every button reads "Loading...".  A submission that passes
    its guard does go through such a state. *)
Theorem locked_while_pending :
  forall (s : SectionId) (env : Env) (st : State),
    Forall (fun pending =>
              disabled_props (render pending) = [true; true; true; true; true; true] /\
              map snd (captions (render pending))
              = ["Loading..."; "Loading..."; "Loading..."])
           (pending_in (trace (submit s env st)) st) /\
    (guard s st = true -> pending_in (trace (submit s env st)) st <> []).
Proof.
  intros s env st.
  destruct (submit_io s env st) as [Hio Hpending]; rewrite Hpending; split.
  - apply Forall_forall; intros pending Hin.
    apply in_map_iff in Hin; destruct Hin as [ev [<- _]].
    destruct (controls_render (cleared s st)) as [-> ->].
    destruct s; split; reflexivity.
  - intros Hg; rewrite Hio.
    destruct (@guarded_cases s env st Hg) as [[input ->]|[-> [file [-> _]]]].
    + destruct s; [discriminate | discriminate |].
      destruct (portfolioFile st); discriminate.
    + discriminate.
Qed.

Lemma locked_while_pending_witness :
  guard Summary (with_ticker "AAPL") = true /\
  pending_in (trace (submit Summary apple_env (with_ticker "AAPL"))) (with_ticker "AAPL")
  <> [].
Proof.
  split; [reflexivity|].
  apply (proj2 (locked_while_pending Summary apple_env (with_ticker "AAPL")));
    reflexivity.
Defined.

(** ** Sessions *)

Lemma after_idle (s : SectionId) (env : Env) (st : State) :
  loading st = false -> loading (after s env st) = false.
Proof.
  intros Hidle; destruct (guard s st) eqn:Hg.
  - destruct (@guarded_cases s env st Hg) as [[input Hin]|[-> [file [Hfile Hin]]]].
    + now destruct (@submit_sends s env st input Hin) as [-> _].
    + now destruct (@submit_unreadable env st file Hfile Hin) as [-> _].
  - destruct (@submit_guard_fails s env st Hg) as [msg Hsub].
    unfold after; now rewrite Hsub.
Qed.

Lemma interact_idle (env : Env) (ev : UserEvent) (st : State) :
  loading st = false -> loading (interact env ev st) = false.
Proof.
  intros Hidle; unfold interact; rewrite Hidle.
  destruct ev as [v|v|[[|file files]|]|s]; simpl; auto.
  now apply after_idle.
Qed.

Lemma interact_inputs (env : Env) (ev : UserEvent) (st : State) :
  loading st = false ->
  input_cells (interact env ev st) = entered ev (input_cells st).
Proof.
  intros Hidle; unfold interact; rewrite Hidle.
  destruct ev as [v|v|[[|file files]|]|s]; simpl; auto.
  destruct (inputs_kept s env st) as [Ht [Hq Hf]].
  unfold input_cells; fold (submit s env st); fold (after s env st).
  now rewrite Ht, Hq, Hf.
Qed.

(** With every call and read settling, the open interpreter is the
    interpreter. *)
Lemma run_open_always (A : Type) (env : Env) (p : Prog A) (w : World) :
  run_open (always env) p w = (Some (fst (run env p w)), snd (run env p w)).
Proof.
  revert w; induction p as [a|e|s k IH|req k IH|l e k IH|file k IH];
    intros w; simpl; auto.
Qed.

(** Entered with the flag up, the shared block lowers it exactly when it
    runs to its end: a call that stays pending leaves the [finally] block
    unrun. *)
Lemma exchange_open (env : OpenEnv) (endpoint method : string) (body : Value)
      (key : string) (store : Value -> Setter) (generic : string) (w : World) :
  loading (ui (snd (run_open env (exchange endpoint method body key store generic) w)))
  = match fst (run_open env (exchange endpoint method body key store generic) w) with
    | Some _ => false
    | None => loading (ui w)
    end.
Proof.
  unfold exchange, fetchData.
  destruct (truthy body); simpl;
    (destruct (reply env _) as [[c|r]|]; simpl; auto;
     destruct (ok r); simpl; auto;
     destruct (json r) as [e|data]; simpl; auto;
     destruct data; simpl; auto;
     match goal with
     | |- context [own_property ?props ?k] => destruct (own_property props k)
     end; reflexivity).
Qed.

Lemma run_open_call (A : Type) (env : OpenEnv) (s : Setter) (p : Prog A) (w : World) :
  run_open env (call s ;; p) w = run_open env p (update s w).
Proof. reflexivity. Qed.

Lemma interact_open_loading (env : OpenEnv) (ev : UserEvent) (st : State) :
  loading st = false ->
  loading (interact_open env ev st) = negb (completes env ev st).
Proof.
  assert (Hx : forall e m b k store g (w : World),
             loading (ui w) = true ->
             loading (ui (snd (run_open env (exchange e m b k store g) w)))
             = negb match fst (run_open env (exchange e m b k store g) w) with
                    | Some _ => true
                    | None => false
                    end).
  { intros e m b k store g w Hup; rewrite exchange_open.
    destruct (fst (run_open env (exchange e m b k store g) w)); auto. }
  intros Hidle; unfold interact_open, completes; rewrite Hidle.
  destruct ev as [v|v|[[|file files]|]|[| |]]; simpl handler; try (simpl; now auto).
  - destruct (is_empty (ticker st)) eqn:E.
    + unfold getSummary; simpl truthy; rewrite E; simpl; auto.
    + rewrite (getSummary_guarded _ E), !run_open_call; now apply Hx.
  - destruct (is_empty (question st)) eqn:E.
    + unfold askQuestion; simpl truthy; rewrite E; simpl; auto.
    + rewrite (askQuestion_guarded _ E), !run_open_call; now apply Hx.
  - unfold handlePortfolioUpload; destruct (portfolioFile st) as [file|];
      [|simpl; now auto].
    rewrite !run_open_call.
    change (run_open env (ReadAsText file ?k) ?w)
      with (match reading env file with
            | Some res => run_open env (k res) (emit (EvRead file res) w)
            | None => (None, w)
            end).
    destruct (reading env file) as [[[|[| | |csv| |]]|]|]; try reflexivity.
    rewrite onload_string; now apply Hx.
Qed.

Lemma session_open_locked (evs : list (OpenEnv * UserEvent)) (st : State) :
  loading st = true -> session_open evs st = st.
Proof.
  intros Hlocked; induction evs as [|[env ev] evs IH]; simpl; auto.
  unfold interact_open; now rewrite Hlocked.
Qed.

Lemma session_open_app (evs more : list (OpenEnv * UserEvent)) (st : State) :
  session_open (evs ++ more) st = session_open more (session_open evs st).
Proof.
  revert st; induction evs as [|[env ev] evs IH]; simpl; auto.
Qed.

Lemma session_open_loading (evs : list (OpenEnv * UserEvent)) (st : State) :
  loading st = false ->
  loading (session_open evs st) = negb (all_complete evs st).
Proof.
  revert st; induction evs as [|[env ev] evs IH]; simpl; intros st Hidle; auto.
  pose proof (interact_open_loading env ev st Hidle) as Hstep.
  destruct (completes env ev st); simpl in *.
  - now apply IH.
  - now rewrite (session_open_locked evs _ Hstep).
Qed.

Lemma session_always (evs : list (Env * UserEvent)) (st : State) :
  session_open (map (fun e => (always (fst e), snd e)) evs) st = session evs st /\
  all_complete (map (fun e => (always (fst e), snd e)) evs) st = true.
Proof.
  revert st; induction evs as [|[env ev] evs IH]; simpl; auto.
  intros st.
  assert (Hsame : interact_open (always env) ev st = interact env ev st)
    by (unfold interact_open, interact; now rewrite run_open_always).
  unfold completes; rewrite Hsame, run_open_always; simpl.
  apply IH.
Qed.

(** X11. From an idle state, a session leaves the page idle exactly when
    every handler it started ran to its end: then the flag is down and all
    six controls are enabled, and this is the case whenever every call and
    every read settles, with success or failure.  A call or a read that
    never settles leaves the flag up and all six controls disabled, and no
    later event changes the state: nothing in the component ends the
    wait. *)
Theorem idle_iff_settled :
  forall (evs : list (OpenEnv * UserEvent)) (st : State),
    loading st = false ->
    loading (session_open evs st) = negb (all_complete evs st) /\
    disabled_props (render (session_open evs st))
    = repeat (negb (all_complete evs st)) 6 /\
    (all_complete evs st = false ->
     forall more, session_open (evs ++ more) st = session_open evs st) /\
    (forall settling : list (Env * UserEvent),
        let evs' := map (fun e => (always (fst e), snd e)) settling in
        all_complete evs' st = true /\ session_open evs' st = session settling st).
Proof.
  intros evs st Hidle.
  pose proof (session_open_loading evs st Hidle) as Hloading.
  repeat split.
  - exact Hloading.
  - destruct (controls_render (session_open evs st)) as [-> _]; now rewrite Hloading.
  - intros Hstalled more.
    rewrite session_open_app; apply session_open_locked.
    now rewrite Hloading, Hstalled.
  - apply session_always.
  - apply session_always.
Qed.

Lemma idle_iff_settled_witness :
  loading (with_ticker "AAPL") = false /\
  all_complete [(never, Click Summary)] (with_ticker "AAPL") = false /\
  loading (session_open [(never, Click Summary)] (with_ticker "AAPL")) = true /\
  session_open ([(never, Click Summary)]
                ++ [(always apple_env, TypeTicker "MSFT");
                    (always apple_env, Click Question)])
               (with_ticker "AAPL")
  = session_open [(never, Click Summary)] (with_ticker "AAPL").
Proof.
  split; [reflexivity|]. split; [reflexivity|].
  destruct (idle_iff_settled [(never, Click Summary)] (with_ticker "AAPL") eq_refl)
    as [Hloading [_ [Hlocked _]]].
  split; [exact Hloading|].
  apply Hlocked; reflexivity.
Defined.



(** X13. The input cells hold what the user entered and nothing else: after
    any session from an idle state, the ticker and the question are the
    last values typed, the file is the first file of the last non-empty
    selection, and a cell never entered keeps its value; no button press
    changes any of them. *)
Theorem inputs_follow_entries :
  forall (evs : list (Env * UserEvent)) (st : State),
    loading st = false ->
    input_cells (session evs st) =
    fold_left (fun cells e => entered (snd e) cells) evs (input_cells st).
Proof.
  intros evs; induction evs as [|[env ev] evs IH]; simpl; auto.
  intros st Hidle.
  rewrite (IH _ (interact_idle env ev st Hidle)).
  now rewrite (interact_inputs env ev st Hidle).
Qed.

Lemma inputs_follow_entries_witness :
  loading initial = false /\
  input_cells (session [(offline, TypeTicker "AAP"); (offline, Click Summary);
                        (offline, TypeTicker "AAPL");
                        (offline, ChooseFiles (Some [portfolio_csv; mkFile "other.csv"]));
                        (apple_env, Click Summary)] initial)
  = ("AAPL", "", Some portfolio_csv).
Proof.
  split; [reflexivity|].
  apply (inputs_follow_entries
           [(offline, TypeTicker "AAP"); (offline, Click Summary);
            (offline, TypeTicker "AAPL");
            (offline, ChooseFiles (Some [portfolio_csv; mkFile "other.csv"]));
            (apple_env, Click Summary)] initial); reflexivity.
Defined.
